(** * Document conversion pipeline and temporary-file sweeper

    A shallow embedding of [app/services/converters.py] (class
    [DocumentConverter]) and [app/services/cleanup.py] (class
    [FileCleanupService]), of the request handlers of
    [app/routes/convert_routes.py] that call them, and of two text checks
    of [app/utils/security.py], followed by the properties of the conversion
    pipeline, of one cleanup sweep, of the handlers and of the text checks.

    Conventions of the embedding.
    - Python [int] is [Z]; [str] is [string]; [None]-able arguments are
      [option]; a Python [set] of strings is a [gset string].
    - A call that may raise returns a [result]: [Ok v] or [Raise e], where
      [e] names the Python exception class.
    - The file system seen by the converter is a finite map from paths to
      files. PIL and PyPDF2 are outside the repository; what they find in a
      file is recorded in the file itself ([PdfFile], [ImageFile],
      [OtherFile]), and the image operations the source calls are kept as
      symbolic constructors of [Image]. PIL reads only the header of an
      image when it opens it and decodes the pixels when an operation first
      needs them; an image file records whether that decoding succeeds and
      how many frames it holds. What PIL writes besides the pages (document
      information, the remains of a save that failed) is a parameter
      ([Pillow]).
    - A [Request] is a request whose body Flask accepted and parsed, and
      saving an upload succeeds: failures of the operating system while
      writing (a full disk, a missing upload folder) are not modelled.
    - Time stamps ([time.time()], [os.path.getmtime]) are exact numbers of
      seconds in [Z]; [print] calls are not modelled. *)

From stdpp Require Import base gmap strings list fin_maps.
From Stdlib Require Import ZArith Ascii String Lia.

Local Open Scope string_scope.
Local Open Scope Z_scope.

(** ** Exceptions and results *)

(** The exception classes the modelled calls raise. [OSError] stands for
    the instances of [OSError] that belong to none of its subclasses listed
    here (PIL raises such an instance when pixel data does not decode). *)
Inductive exn : Type :=
  | ValueError
  | IndexError
  | TypeError
  | OSError
  | FileNotFoundError
  | IsADirectoryError
  | NotADirectoryError
  | PermissionError
  | UnidentifiedImageError
  | PdfReadError.

#[global] Instance exn_eq_dec : EqDecision exn.
Proof. solve_decision. Defined.

Inductive result (A : Type) : Type :=
  | Ok (a : A)
  | Raise (e : exn).
Arguments Ok {A} a.
Arguments Raise {A} e.

#[global] Instance result_ret : MRet result := fun A a => Ok a.
#[global] Instance result_bind : MBind result := fun A B f r =>
  match r with
  | Ok a => f a
  | Raise e => Raise e
  end.

(** [for x in xs: acc.append(f(x))], stopping at the first exception. *)
Fixpoint for_each {A B : Type} (f : A → result B) (xs : list A) : result (list B) :=
  match xs with
  | [] => Ok []
  | x :: rest =>
      y ← f x;
      ys ← for_each f rest;
      Ok (y :: ys)
  end.

Definition is_ok {A : Type} (r : result A) : bool :=
  match r with Ok _ => true | Raise _ => false end.

(** ** Python built-ins used by the source *)

(** [c in s] for a one-character [c]. *)
Fixpoint str_contains (c : ascii) (s : string) : bool :=
  match s with
  | EmptyString => false
  | String a rest => Ascii.eqb a c || str_contains c rest
  end.

(** The split point of [s.rsplit(c, 1)]: the text before and after the last
    occurrence of [c], or [None] when [c] does not occur. *)
Fixpoint rsplit_last (c : ascii) (s : string) : option (string * string) :=
  match s with
  | EmptyString => None
  | String a rest =>
      match rsplit_last c rest with
      | Some (head, tail) => Some (String a head, tail)
      | None => if Ascii.eqb a c then Some (EmptyString, rest) else None
      end
  end.

(** [s.rsplit(c, 1)] *)
Definition rsplit1 (c : ascii) (s : string) : list string :=
  match rsplit_last c s with
  | Some (head, tail) => [head; tail]
  | None => [s]
  end.

Definition lower_ascii (a : ascii) : ascii :=
  let n := N_of_ascii a in
  if ((65 <=? n) && (n <=? 90))%N then ascii_of_N (n + 32) else a.

(** [s.lower()] *)
Fixpoint lower (s : string) : string :=
  match s with
  | EmptyString => EmptyString
  | String a rest => String (lower_ascii a) (lower rest)
  end.

(** [xs[i]] for an integer index: negative indices count from the end, and an
    index outside the sequence raises [IndexError]. *)
Definition getitem {A : Type} (xs : list A) (i : Z) : result A :=
  let len := Z.of_nat (List.length xs) in
  let i := if i <? 0 then len + i else i in
  if (i <? 0) || (len <=? i) then Raise IndexError
  else match xs !! Z.to_nat i with
       | Some x => Ok x
       | None => Raise IndexError
       end.

(** [range(a, b)] *)
Definition range (a b : Z) : list Z := seqZ a (b - a).

(** [os.path.join(a, b)] with POSIX separators. *)
Definition startswith_sep (s : string) : bool :=
  match s with
  | String c _ => Ascii.eqb c "/"
  | EmptyString => false
  end.

Fixpoint endswith_sep (s : string) : bool :=
  match s with
  | EmptyString => false
  | String c EmptyString => Ascii.eqb c "/"
  | String _ rest => endswith_sep rest
  end.

Definition os_path_join (a b : string) : string :=
  if startswith_sep b then b
  else if String.eqb a "" || endswith_sep a then a +:+ b
  else a +:+ "/" +:+ b.

(** ** Images (PIL), as far as the source drives them *)

(** What an image file holds: the mode and the size its header declares,
    the number of frames after the first (an animated PNG, a multi-picture
    JPEG or a multi-page TIFF has some), the pixel data, and whether the
    pixel data can be decoded (it cannot when the file is truncated or
    damaged behind its header). *)
Record ImageData : Type := mkImageData {
  im_mode : string;
  im_size : Z * Z;
  im_more : nat;
  im_pixels : string;
  im_intact : bool
}.

#[warnings="-register-all"]
Inductive Image : Type :=
  | Opened (d : ImageData)
      (* what [Image.open] returns: the header is read, the pixels are not *)
  | New (mode : string) (size : Z * Z) (color : Z * Z * Z)
      (* [Image.new(mode, size, color)] *)
  | Paste (canvas : Image) (im : Image) (mask : option Image)
      (* [canvas] after [canvas.paste(im, mask=mask)] *)
  | Convert (im : Image) (mode : string)
      (* [im.convert(mode)] *)
  | LastBand (im : Image).
      (* [im.split()[-1]] *)

Fixpoint img_mode (im : Image) : string :=
  match im with
  | Opened d => im_mode d
  | New mode _ _ => mode
  | Paste canvas _ _ => img_mode canvas
  | Convert _ mode => mode
  | LastBand _ => "L"
  end.

Fixpoint img_size (im : Image) : Z * Z :=
  match im with
  | Opened d => im_size d
  | New _ size _ => size
  | Paste canvas _ _ => img_size canvas
  | Convert im _ => img_size im
  | LastBand im => img_size im
  end.

(** [im.n_frames]; an image that was not read from a file has one frame. *)
Definition n_frames (im : Image) : nat :=
  match im with
  | Opened d => S (im_more d)
  | _ => 1%nat
  end.

(** Whether [im.load()] succeeds. Only an image read from a file has pixels
    left to decode. *)
Definition loads (im : Image) : bool :=
  match im with
  | Opened d => im_intact d
  | _ => true
  end.

(** [im.load()], which [split], [paste], [convert] and [save] call before
    they touch the pixels. *)
Definition load (im : Image) : result unit :=
  if loads im then Ok () else Raise OSError.

(** ** PDF documents (PyPDF2) and files *)

(** A page: opaque content, or the page PIL draws for one frame of an
    image at a resolution. *)
Inductive Page : Type :=
  | PageBytes (content : string)
  | PageOfImage (resolution : Z) (im : Image) (frame : nat).

(** A value of the document information as PyPDF2 hands it over: a text
    string, or a PDF object that a JSON encoder refuses (a byte string, for
    one). *)
Inductive MetaValue : Type :=
  | TextValue (text : string)
  | OtherValue (repr : string).

Record Document : Type := mkDocument {
  pages : list Page;
  metadata : list (string * MetaValue)
}.

Inductive file : Type :=
  | PdfFile (doc : Document)
  | ImageFile (d : ImageData)
  | OtherFile (raw : string).

(** The document a [PdfWriter] or [PdfMerger] writes for a page list. *)
Definition written (ps : list Page) : Document :=
  {| pages := ps; metadata := [("/Producer", TextValue "PyPDF2")] |}.

(** [PdfReader(path)] *)
Definition PdfReader (fs : gmap string file) (path : string) : result Document :=
  match fs !! path with
  | None => Raise FileNotFoundError
  | Some (PdfFile doc) => Ok doc
  | Some _ => Raise PdfReadError
  end.

(** [Image.open(path)]: the file is identified by its header; the pixels
    stay undecoded. *)
Definition Image_open (fs : gmap string file) (path : string) : result Image :=
  match fs !! path with
  | None => Raise FileNotFoundError
  | Some (ImageFile d) => Ok (Opened d)
  | Some _ => Raise UnidentifiedImageError
  end.

(** The part of PIL's PDF writer that the pages do not determine: the
    document information it writes for an output path, and what it leaves
    at the output path when saving the images [ims] fails, given what was
    there before (nothing new, or the beginning of a PDF). *)
Record Pillow : Type := mkPillow {
  pdf_information : string → list (string * MetaValue);
  failed_save : list Image → option file → option file
}.

(** The pages PIL's PDF writer makes of one image: with [save_all] a page
    for every frame, without it a page for the current frame, which is the
    first. *)
Definition pages_of (resolution : Z) (save_all : bool) (im : Image) : list Page :=
  if save_all then map (PageOfImage resolution im) (seq 0 (n_frames im))
  else [PageOfImage resolution im 0%nat].

(** [first.save(path, 'PDF', resolution=resolution, save_all=save_all,
    append_images=append_images)]. Without [save_all] PIL ignores
    [append_images]. The images are decoded as they are written; an image
    that does not decode ends the call with [OSError]. *)
Definition Image_save (pil : Pillow) (fs : gmap string file) (first : Image)
    (path : string) (resolution : Z) (save_all : bool) (append_images : list Image)
    : gmap string file * result unit :=
  let ims := if save_all then first :: append_images else [first] in
  if forallb loads ims then
    (<[path := PdfFile {| pages := List.concat (map (pages_of resolution save_all) ims);
                          metadata := pdf_information pil path |}]> fs,
     Ok ())
  else (partial_alter (failed_save pil ims) path fs, Raise OSError).

(** ** [DocumentConverter] *)

Definition ALLOWED_IMAGE_EXTENSIONS : gset string := {[ "png"; "jpg"; "jpeg" ]}.
Definition ALLOWED_PDF_EXTENSIONS : gset string := {[ "pdf" ]}.

Definition allowed_file (filename file_type : string) : result bool :=
  if negb (str_contains "." filename) then Ok false
  else
    part ← getitem (rsplit1 "." filename) 1;
    let ext := lower part in
    if String.eqb file_type "image" then
      Ok (bool_decide (ext ∈ ALLOWED_IMAGE_EXTENSIONS))
    else if String.eqb file_type "pdf" then
      Ok (bool_decide (ext ∈ ALLOWED_PDF_EXTENSIONS))
    else
      Ok (bool_decide (ext ∈ ALLOWED_IMAGE_EXTENSIONS ∪ ALLOWED_PDF_EXTENSIONS)).

(** The body of the loop of [images_to_pdf]: the opened image to the image
    that is appended to [images]. The mask [img.split()[-1]] is only
    computed for mode RGBA. *)
Definition append_rgb (img : Image) : result Image :=
  let mode := img_mode img in
  if String.eqb mode "RGBA" || String.eqb mode "LA" || String.eqb mode "P" then
    let rgb_img := New "RGB" (img_size img) (255, 255, 255) in
    mask ← (if String.eqb mode "RGBA" then _ ← load img; Ok (Some (LastBand img))
            else Ok None);
    _ ← load img;
    Ok (Paste rgb_img img mask)
  else if negb (String.eqb mode "RGB") then
    _ ← load img;
    Ok (Convert img "RGB")
  else Ok img.

(** [images_to_pdf]: the file system after the call and what the call
    returns or raises. *)
Definition images_to_pdf (pil : Pillow) (fs : gmap string file) (upload_folder : string)
    (image_paths : list string) (output_filename : string)
    : gmap string file * result string :=
  match image_paths with
  | [] => (fs, Raise ValueError)
  | _ =>
      match for_each (fun img_path => img ← Image_open fs img_path; append_rgb img)
                     image_paths with
      | Raise e => (fs, Raise e)
      | Ok images =>
          let output_path := os_path_join upload_folder output_filename in
          match getitem images 0 with
          | Raise e => (fs, Raise e)
          | Ok first =>
              let '(fs', saved) :=
                if Z.of_nat (List.length images) =? 1 then
                  Image_save pil fs first output_path 100 false []
                else
                  Image_save pil fs first output_path 100 true (drop 1 images) in
              (fs', _ ← saved; Ok output_path)
          end
      end
  end.

(** [merge_pdfs]: the new file system and the returned path. Every
    exception of the call is raised while the inputs are read, before
    [merger.write] opens the output: a call that raises has written
    nothing. *)
Definition merge_pdfs (fs : gmap string file) (upload_folder : string)
    (pdf_paths : list string) (output_filename : string)
    : result (gmap string file * string) :=
  match pdf_paths with
  | [] => Raise ValueError
  | _ =>
      appended ← for_each (fun pdf_path => doc ← PdfReader fs pdf_path; Ok (pages doc))
                          pdf_paths;
      let output_path := os_path_join upload_folder output_filename in
      Ok (<[output_path := PdfFile (written (List.concat appended))]> fs, output_path)
  end.

(** The two bounds after the defaults and the clamping of [split_pdf]. *)
Definition split_bounds (total_pages : Z) (start_page end_page : option Z) : Z * Z :=
  let start_page := match start_page with None => 1 | Some s => s end in
  let end_page := match end_page with None => total_pages | Some e => e end in
  let start_page := Z.max 1 (Z.min start_page total_pages) in
  let end_page := Z.max start_page (Z.min end_page total_pages) in
  (start_page, end_page).

(** [split_pdf]: the new file system and the returned path. The pages are
    looked up before the output is opened: a call that raises has written
    nothing. *)
Definition split_pdf (fs : gmap string file) (upload_folder pdf_path : string)
    (start_page end_page : option Z) (output_filename : string)
    : result (gmap string file * string) :=
  reader ← PdfReader fs pdf_path;
  let total_pages := Z.of_nat (List.length (pages reader)) in
  let '(start_page, end_page) := split_bounds total_pages start_page end_page in
  added ← for_each (fun page_num => getitem (pages reader) page_num)
                   (range (start_page - 1) end_page);
  let output_path := os_path_join upload_folder output_filename in
  Ok (<[output_path := PdfFile (written added)]> fs, output_path).

Record PdfInfo : Type := mkPdfInfo {
  info_pages : Z;
  info_metadata : list (string * MetaValue);
  info_size_bytes : Z
}.

(** [os.path.getsize] is a parameter: the model keeps parsed files, not
    their bytes. The derived float [size_mb] is left out. *)
Definition get_pdf_info (getsize : file → Z) (fs : gmap string file) (pdf_path : string)
    : result PdfInfo :=
  reader ← PdfReader fs pdf_path;
  match fs !! pdf_path with
  | Some f =>
      Ok {| info_pages := Z.of_nat (List.length (pages reader));
            info_metadata := metadata reader;
            info_size_bytes := getsize f |}
  | None => Raise FileNotFoundError
  end.

Definition delete_file (fs : gmap string file) (filepath : string) : gmap string file :=
  if bool_decide (is_Some (fs !! filepath)) then delete filepath fs else fs.

(** ** [FileCleanupService] *)

(** What the sweep can observe of one directory entry: whether it is a
    regular file, its modification time, and whether [os.remove] succeeds on
    it (a file that is locked or protected makes [os.remove] raise). *)
Record entry : Type := mkEntry {
  is_file : bool;
  mtime : Z;
  removable : bool
}.

(** The path [folder_path] on disk: absent, something that is not a
    directory, or a directory with its entries by name. *)
Inductive folder : Type :=
  | NoFolder
  | NotDirectory
  | Directory (entries : gmap string entry).

Definition folder_entries (w : folder) : gmap string entry :=
  match w with
  | Directory entries => entries
  | _ => ∅
  end.

Definition os_path_exists (w : folder) : bool :=
  match w with
  | NoFolder => false
  | _ => true
  end.

(** [os.listdir]: the names, in the arbitrary order of the map. *)
Definition os_listdir (w : folder) : result (list string) :=
  match w with
  | NoFolder => Raise FileNotFoundError
  | NotDirectory => Raise NotADirectoryError
  | Directory entries => Ok ((map_to_list entries).*1)
  end.

Definition os_path_isfile (w : folder) (filename : string) : bool :=
  match folder_entries w !! filename with
  | Some e => is_file e
  | None => false
  end.

Definition os_path_getmtime (w : folder) (filename : string) : result Z :=
  match folder_entries w !! filename with
  | Some e => Ok (mtime e)
  | None => Raise FileNotFoundError
  end.

Definition os_remove (w : folder) (filename : string) : result folder :=
  match folder_entries w !! filename with
  | None => Raise FileNotFoundError
  | Some e =>
      if is_file e && removable e then Ok (Directory (delete filename (folder_entries w)))
      else Raise PermissionError
  end.

Record FileCleanupService : Type := mkService {
  folder_path : string;
  max_age_seconds : Z;
  running : bool
}.

(** [FileCleanupService.__init__] *)
Definition new_service (folder_path : string) (max_age_minutes : Z) : FileCleanupService :=
  {| folder_path := folder_path;
     max_age_seconds := max_age_minutes * 60;
     running := false |}.

(** The folder and the local [deleted_count] while the loop runs. *)
Record sweep_state : Type := mkSweep {
  disk : folder;
  deleted_count : Z
}.

(** One iteration of [for filename in os.listdir(...)]. The second component
    is the exception that leaves the iteration, if any: the inner [try]
    swallows every exception of [os.remove]. *)
Definition sweep_step (self : FileCleanupService) (current_time : Z)
    (st : sweep_state) (filename : string) : sweep_state * option exn :=
  if negb (os_path_isfile (disk st) filename) then (st, None)
  else
    match os_path_getmtime (disk st) filename with
    | Raise e => (st, Some e)
    | Ok modified =>
        let file_age := current_time - modified in
        if max_age_seconds self <? file_age then
          match os_remove (disk st) filename with
          | Ok disk' =>
              ({| disk := disk'; deleted_count := deleted_count st + 1 |}, None)
          | Raise _ => (st, None)
          end
        else (st, None)
    end.

Fixpoint sweep_loop (self : FileCleanupService) (current_time : Z)
    (filenames : list string) (st : sweep_state) : sweep_state * option exn :=
  match filenames with
  | [] => (st, None)
  | filename :: rest =>
      match sweep_step self current_time st filename with
      | (st', None) => sweep_loop self current_time rest st'
      | (st', Some e) => (st', Some e)
      end
  end.

(** [cleanup_old_files]: the folder after the sweep and the returned count.
    The outer [try] swallows whatever leaves the loop or [os.listdir]. *)
Definition cleanup_old_files (self : FileCleanupService) (current_time : Z)
    (w : folder) : folder * Z :=
  if negb (os_path_exists w) then (w, 0)
  else
    match os_listdir w with
    | Raise _ => (w, 0)
    | Ok filenames =>
        let '(st, _) := sweep_loop self current_time filenames
                                   {| disk := w; deleted_count := 0 |} in
        (disk st, deleted_count st)
    end.

(** A file the sweep removes: regular, older than the threshold, and
    [os.remove] succeeds on it. *)
Definition swept (self : FileCleanupService) (current_time : Z) (e : entry) : bool :=
  is_file e && (max_age_seconds self <? current_time - mtime e) && removable e.

(** A file past the retention threshold. *)
Definition expired (self : FileCleanupService) (current_time : Z) (e : entry) : bool :=
  is_file e && (max_age_seconds self <? current_time - mtime e).

(** The entries a loop over [filenames] leaves in place. *)
Definition survives (self : FileCleanupService) (current_time : Z)
    (filenames : list string) (p : string * entry) : Prop :=
  ¬ (p.1 ∈ filenames ∧ swept self current_time p.2 = true).

#[global] Instance survives_dec self current_time filenames p :
  Decision (survives self current_time filenames p).
Proof. unfold survives. apply _. Defined.

(** ** Vocabulary of the statements *)

(** [clamp x lo hi]: [x] brought into [lo, hi]. *)
Definition clamp (x lo hi : Z) : Z := Z.max lo (Z.min x hi).

(** Pages [a] to [b] of a page list, 1-indexed and inclusive. *)
Definition page_slice {A : Type} (ps : list A) (a b : Z) : list A :=
  take (Z.to_nat (b - a + 1)) (drop (Z.to_nat (a - 1)) ps).



Definition is_pdf (fs : gmap string file) (path : string) : bool :=
  match fs !! path with
  | Some (PdfFile _) => true
  | _ => false
  end.

Definition is_image (fs : gmap string file) (path : string) : bool :=
  match fs !! path with
  | Some (ImageFile _) => true
  | _ => false
  end.

(** A stored image that passes the loop of [images_to_pdf]: an RGB image,
    which the loop does not decode, or an image of another mode whose pixel
    data decodes. *)
Definition passes_loop (fs : gmap string file) (path : string) : bool :=
  match fs !! path with
  | Some (ImageFile d) => String.eqb (im_mode d) "RGB" || im_intact d
  | _ => false
  end.


(** The image that stands for the image file [d] on the pages of the
    output, mode by mode: an RGBA image pasted onto a white canvas of its
    size through its last band, an LA or P image pasted onto such a canvas
    without a mask, an RGB image as it was opened, an image of any other
    mode converted to RGB. *)
Definition rgb_version (d : ImageData) : Image :=
  let img := Opened d in
  let white := New "RGB" (im_size d) (255, 255, 255) in
  if String.eqb (im_mode d) "RGBA" then Paste white img (Some (LastBand img))
  else if String.eqb (im_mode d) "LA" || String.eqb (im_mode d) "P" then
    Paste white img None
  else if String.eqb (im_mode d) "RGB" then img
  else Convert img "RGB".

Definition page_count (doc : Document) : Z := Z.of_nat (List.length (pages doc)).

Definition total_page_count (docs : list Document) : Z :=
  foldr (fun doc acc => page_count doc + acc) 0 docs.

(** A run that, when it succeeds, returns [os.path.join(upload_folder,
    output_filename)] and changes the file system at that path only, where
    it stores a PDF. *)
Definition writes_one_file (fs : gmap string file) (upload_folder output_filename : string)
    (run : result (gmap string file * string)) : Prop :=
  ∀ fs' path, run = Ok (fs', path) →
    path = os_path_join upload_folder output_filename ∧
    (∃ doc, fs' = <[path := PdfFile doc]> fs) ∧
    (∀ other, other ≠ path → fs' !! other = fs !! other).

(** ** Sample data *)

Definition three_pages : Document :=
  written [PageBytes "one"; PageBytes "two"; PageBytes "three"].

Definition no_pages : Document := written [].

(** Image files: with an alpha band, in gray, a plain RGB picture, an RGB
    file of two frames, and an RGB file whose pixel data is cut off. *)
Definition rgba_image : ImageData :=
  {| im_mode := "RGBA"; im_size := (4, 3); im_more := 0; im_pixels := "rgba-bytes";
     im_intact := true |}.

Definition gray_image : ImageData :=
  {| im_mode := "L"; im_size := (2, 2); im_more := 0; im_pixels := "gray-bytes";
     im_intact := true |}.

Definition rgb_image : ImageData :=
  {| im_mode := "RGB"; im_size := (1, 1); im_more := 0; im_pixels := "rgb-bytes";
     im_intact := true |}.

Definition two_frames : ImageData :=
  {| im_mode := "RGB"; im_size := (8, 8); im_more := 1; im_pixels := "two-frames";
     im_intact := true |}.

Definition cut_off : ImageData :=
  {| im_mode := "RGB"; im_size := (8, 8); im_more := 0; im_pixels := "cut";
     im_intact := false |}.

Definition sample_fs : gmap string file :=
  <["/up/a.pdf" := PdfFile three_pages]>
  (<["/up/empty.pdf" := PdfFile no_pages]>
  (<["/up/split.pdf" := PdfFile three_pages]>
  (<["/up/rgba.png" := ImageFile rgba_image]>
  (<["/up/gray.jpg" := ImageFile gray_image]>
  (<["/up/rgb.jpg" := ImageFile rgb_image]>
  (<["/up/burst.jpg" := ImageFile two_frames]>
  (<["/up/cut.jpg" := ImageFile cut_off]>
  (<["/up/notes.png" := OtherFile "plain text"]> ∅)))))))).

(** A PDF writer that records a title and removes the output of a save
    that failed. *)
Definition sample_pillow : Pillow :=
  {| pdf_information := fun path => [("/Title", TextValue path)];
     failed_save := fun _ _ => None |}.

(** The service of the routes: retention of 30 minutes. *)
Definition sample_service : FileCleanupService := new_service "/app/uploads" 30.

(** A folder seen 2700 seconds after time 0: a file aged 45 minutes, one
    aged 5 minutes, a file aged 45 minutes that cannot be removed, and a
    subdirectory. *)
Definition sample_folder : gmap string entry :=
  <["old.pdf" := {| is_file := true; mtime := 0; removable := true |}]>
  (<["new.pdf" := {| is_file := true; mtime := 2400; removable := true |}]>
  (<["locked.pdf" := {| is_file := true; mtime := 0; removable := false |}]>
  (<["archive" := {| is_file := false; mtime := 0; removable := false |}]> ∅))).

Definition locked_only : gmap string entry :=
  {[ "locked.pdf" := {| is_file := true; mtime := 0; removable := false |} ]}.

(** ** The rest of [DocumentConverter]: uploads *)

(** A werkzeug [FileStorage]: the name the client declared and the uploaded
    content. Strings are sequences of bytes (UTF-8). *)
Record FileStorage : Type := mkUpload {
  upload_filename : string;
  upload_stream : file
}.

(** [save_file]. [secure_filename] belongs to werkzeug and is a parameter;
    [timestamp] is [datetime.now().strftime('%Y%m%d_%H%M%S')]. *)
Definition save_file (secure_filename : string → string) (timestamp : string)
    (fs : gmap string file) (upload_folder : string) (upload : FileStorage)
    : gmap string file * string :=
  let filename := secure_filename (upload_filename upload) in
  let filename := timestamp +:+ "_" +:+ filename in
  let filepath := os_path_join upload_folder filename in
  (<[filepath := upload_stream upload]> fs, filepath).

(** ** The rest of [FileCleanupService]: folder statistics *)

Record FolderStats : Type := mkStats {
  stats_exists : bool;
  stats_file_count : Z;
  stats_total_size : Z;
  stats_folder_path : option string
}.

(** The loop of [get_folder_stats] with its two accumulators;
    [getsize filename] is [os.path.getsize] of that entry. *)
Fixpoint stats_loop (getsize : string → Z) (w : folder) (filenames : list string)
    (acc : Z * Z) : Z * Z :=
  match filenames with
  | [] => acc
  | filename :: rest =>
      if os_path_isfile w filename
      then stats_loop getsize w rest (acc.1 + 1, acc.2 + getsize filename)
      else stats_loop getsize w rest acc
  end.

(** [get_folder_stats]. [stats_total_size] is the byte total the code
    accumulates; the float [total_size_mb] derived from it is left out. The
    call has no handler of its own: what [os.listdir] raises leaves it. *)
Definition get_folder_stats (getsize : string → Z) (self : FileCleanupService)
    (w : folder) : result FolderStats :=
  if negb (os_path_exists w) then
    Ok {| stats_exists := false; stats_file_count := 0; stats_total_size := 0;
          stats_folder_path := None |}
  else
    filenames ← os_listdir w;
    let '(file_count, total_size) := stats_loop getsize w filenames (0, 0) in
    Ok {| stats_exists := true; stats_file_count := file_count;
          stats_total_size := total_size;
          stats_folder_path := Some (folder_path self) |}.

(** ** The request handlers of [convert_routes.py] *)

(** What a handler takes from its surroundings: werkzeug's
    [secure_filename], the module constant [UPLOAD_FOLDER], the formatted
    value of the k-th [datetime.now()] of the request, Python's [str] of a
    list of strings, [os.path.getsize], the PDF writer of PIL, and the
    paths that name a directory (the upload folder is one). *)
Record Env : Type := mkEnv {
  secure_filename : string → string;
  UPLOAD_FOLDER : string;
  now : nat → string;
  str_of_list : list string → string;
  getsize_of : file → Z;
  pillow : Pillow;
  os_path_isdir : string → bool
}.

(** A Flask request that was accepted and parsed, as far as the handlers
    read it: [request.files] (a multi-dict, every key with at least one
    value) and the two integers that [request.form.get(..., type=int)]
    yields. A body over [MAX_CONTENT_LENGTH], for which reading
    [request.files] raises, is no value of this type. *)
Record Request : Type := mkRequest {
  req_files : gmap string (FileStorage * list FileStorage);
  req_start_page : option Z;
  req_end_page : option Z
}.

(** [request.files.getlist(key)] *)
Definition getlist (req : Request) (key : string) : list FileStorage :=
  match req_files req !! key with
  | Some (first, others) => first :: others
  | None => []
  end.

(** The bodies the handlers return. *)
Inductive Json : Type :=
  | JError (error : string)
  | JErrorExn (prefix : string) (e : exn)
      (* [{'error': f'{prefix}{str(e)}'}] *)
  | JSuccess (message filename download_url : string)
  | JInfo (info : PdfInfo)
  | SendFile (filepath download_name mimetype : string).

Definition Response : Type := Json * Z.

(** How the saving loop of a handler ends: with a response returned from
    inside the loop, with an exception, or with all uploads saved. *)
Inductive loop_end : Type :=
  | Returned (r : Response)
  | Raised (e : exn)
  | Saved (paths : list string) (tick : nat).

(** [for file in files: if not allowed_file(...): return ...; filepath =
    save_file(file); paths.append(filepath)]. [tick] counts the calls of
    [datetime.now()] so far. *)
Fixpoint save_loop (env : Env) (file_type : string) (reject : string → string)
    (files : list FileStorage) (tick : nat) (fs : gmap string file)
    (paths : list string) : gmap string file * loop_end :=
  match files with
  | [] => (fs, Saved paths tick)
  | upload :: rest =>
      match allowed_file (upload_filename upload) file_type with
      | Raise e => (fs, Raised e)
      | Ok false => (fs, Returned (JError (reject (upload_filename upload)), 400))
      | Ok true =>
          let '(fs', filepath) :=
            save_file (secure_filename env) (now env tick) fs (UPLOAD_FOLDER env) upload in
          save_loop env file_type reject rest (S tick) fs' (paths ++ [filepath])
      end
  end.

(** [for path in paths: converter.delete_file(path)] *)
Definition delete_files (fs : gmap string file) (paths : list string) : gmap string file :=
  foldl delete_file fs paths.

Definition upload_images_to_pdf (env : Env) (fs : gmap string file) (req : Request)
    : gmap string file * Response :=
  if negb (bool_decide (is_Some (req_files req !! "files[]"))) then
    (fs, (JError ("No se enviaron archivos. Recibido: "
                  +:+ str_of_list env ((map_to_list (req_files req)).*1)), 400))
  else
    let files := getlist req "files[]" in
    match files with
    | [] => (fs, (JError "No se seleccionaron archivos", 400))
    | first :: _ =>
        if String.eqb (upload_filename first) "" then
          (fs, (JError "No se seleccionaron archivos", 400))
        else
          match save_loop env "image" (fun name => "Formato no permitido: " +:+ name)
                          files 0 fs [] with
          | (fs1, Returned r) => (fs1, r)
          | (fs1, Raised e) => (fs1, (JErrorExn "Error al convertir: " e, 500))
          | (fs1, Saved image_paths tick) =>
              let output_filename := "converted_" +:+ now env tick +:+ ".pdf" in
              match images_to_pdf (pillow env) fs1 (UPLOAD_FOLDER env) image_paths
                                  output_filename with
              | (fs2, Raise e) => (fs2, (JErrorExn "Error al convertir: " e, 500))
              | (fs2, Ok pdf_path) =>
                  (delete_files fs2 image_paths,
                   (JSuccess "Imágenes convertidas a PDF exitosamente" output_filename
                             ("/convert/download/" +:+ output_filename), 200))
              end
          end
    end.

Definition upload_merge_pdfs (env : Env) (fs : gmap string file) (req : Request)
    : gmap string file * Response :=
  if negb (bool_decide (is_Some (req_files req !! "files[]"))) then
    (fs, (JError "No se enviaron archivos", 400))
  else
    let files := getlist req "files[]" in
    match files with
    | [] => (fs, (JError "No se seleccionaron archivos", 400))
    | first :: _ =>
        if String.eqb (upload_filename first) "" then
          (fs, (JError "No se seleccionaron archivos", 400))
        else
          match save_loop env "pdf" (fun name => "Solo se permiten archivos PDF: " +:+ name)
                          files 0 fs [] with
          | (fs1, Returned r) => (fs1, r)
          | (fs1, Raised e) => (fs1, (JErrorExn "Error al unir PDFs: " e, 500))
          | (fs1, Saved pdf_paths tick) =>
              let output_filename := "merged_" +:+ now env tick +:+ ".pdf" in
              match merge_pdfs fs1 (UPLOAD_FOLDER env) pdf_paths output_filename with
              | Raise e => (fs1, (JErrorExn "Error al unir PDFs: " e, 500))
              | Ok (fs2, merged_path) =>
                  (delete_files fs2 pdf_paths,
                   (JSuccess "PDFs unidos exitosamente" output_filename
                             ("/convert/download/" +:+ output_filename), 200))
              end
          end
    end.

Definition upload_split_pdf (env : Env) (fs : gmap string file) (req : Request)
    : gmap string file * Response :=
  match req_files req !! "file" with
  | None => (fs, (JError "No se envió archivo", 400))
  | Some (upload, _) =>
      if String.eqb (upload_filename upload) "" then
        (fs, (JError "No se seleccionó archivo", 400))
      else
        match allowed_file (upload_filename upload) "pdf" with
        | Raise e => (fs, (JErrorExn "Error al dividir PDF: " e, 500))
        | Ok false => (fs, (JError "Solo se permiten archivos PDF", 400))
        | Ok true =>
            let '(fs1, filepath) :=
              save_file (secure_filename env) (now env 0) fs (UPLOAD_FOLDER env) upload in
            let start_page := req_start_page req in
            let end_page := req_end_page req in
            let output_filename := "split_" +:+ now env 1 +:+ ".pdf" in
            match split_pdf fs1 (UPLOAD_FOLDER env) filepath start_page end_page
                            output_filename with
            | Raise e => (fs1, (JErrorExn "Error al dividir PDF: " e, 500))
            | Ok (fs2, split_path) =>
                (delete_file fs2 filepath,
                 (JSuccess "PDF dividido exitosamente" output_filename
                           ("/convert/download/" +:+ output_filename), 200))
            end
        end
  end.

(** Whether [jsonify] can encode the information: the metadata values
    PyPDF2 hands over are PDF objects, and only the text strings among them
    are JSON-serialisable. *)
Definition json_serialisable (info : PdfInfo) : bool :=
  forallb (fun item : string * MetaValue =>
             match item.2 with TextValue _ => true | OtherValue _ => false end)
          (info_metadata info).

(** The handler of [/pdf-info] (the route function [get_pdf_info]). The
    response is built after the saved upload was deleted, and inside the
    [try]: a [TypeError] of [jsonify] ends in the 500 answer. *)
Definition pdf_info_route (env : Env) (fs : gmap string file) (req : Request)
    : gmap string file * Response :=
  match req_files req !! "file" with
  | None => (fs, (JError "No se envió archivo", 400))
  | Some (upload, _) =>
      if String.eqb (upload_filename upload) "" then
        (fs, (JError "No se seleccionó archivo", 400))
      else
        match allowed_file (upload_filename upload) "pdf" with
        | Raise e => (fs, (JErrorExn "Error al obtener información: " e, 500))
        | Ok false => (fs, (JError "Solo se permiten archivos PDF", 400))
        | Ok true =>
            let '(fs1, filepath) :=
              save_file (secure_filename env) (now env 0) fs (UPLOAD_FOLDER env) upload in
            match get_pdf_info (getsize_of env) fs1 filepath with
            | Raise e => (fs1, (JErrorExn "Error al obtener información: " e, 500))
            | Ok info =>
                let fs2 := delete_file fs1 filepath in
                if json_serialisable info then (fs2, (JInfo info, 200))
                else (fs2, (JErrorExn "Error al obtener información: " TypeError, 500))
            end
        end
  end.



(** ** Text checks of [app/utils/security.py]

    A text is a sequence of 8-bit characters: the model covers the texts
    whose code points are all below 256, where a character of the model is
    a character of the Python [str]. *)

(** [text[:stop]] on such a text. *)
Definition slice_to (text : string) (stop : Z) : string :=
  let len := Z.of_nat (String.length text) in
  let stop := if stop <? 0 then Z.max 0 (len + stop) else stop in
  String.substring 0 (Z.to_nat stop) text.

(** A character of the class [[\x00-\x1F\x7F]]. *)
Definition is_control (c : ascii) : bool :=
  let n := N_of_ascii c in ((n <=? 31) || (n =? 127))%N.

(** [re.sub(r'[\x00-\x1F\x7F]', '', text)] *)
Fixpoint remove_control (text : string) : string :=
  match text with
  | EmptyString => EmptyString
  | String c rest =>
      if is_control c then remove_control rest else String c (remove_control rest)
  end.

Definition html_escape_table : gmap ascii string :=
  {[ "&"%char := "&amp;";
     "034"%char := "&quot;";
     "'"%char := "&#x27;";
     ">"%char := "&gt;";
     "<"%char := "&lt;" ]}.

(** ["".join(html_escape_table.get(c, c) for c in text)] *)
Fixpoint escape_all (text : string) : string :=
  match text with
  | EmptyString => EmptyString
  | String c rest =>
      match html_escape_table !! c with
      | Some entity => entity
      | None => String c EmptyString
      end +:+ escape_all rest
  end.

Definition sanitize_input (text : string) (max_length : Z) : string :=
  if String.eqb text "" then ""
  else
    let text := slice_to text max_length in
    let text := remove_control text in
    escape_all text.

Definition dangerous_chars : list ascii :=
  ["<"%char; ">"%char; "034"%char; "'"%char; "\"%char].

Definition is_safe_redirect_url (target : string) : bool :=
  if String.eqb target "" then false
  else if String.prefix "http://" target || String.prefix "https://" target then false
  else if existsb (fun char => str_contains char target) dangerous_chars then false
  else true.

(** The characters [sanitize_input] is meant to keep out of its result. *)
Definition is_markup (c : ascii) : bool :=
  is_control c || Ascii.eqb c "<" || Ascii.eqb c ">" || Ascii.eqb c "034"
  || Ascii.eqb c "'".

(** The path under which a handler saves the upload that meets the k-th
    [datetime.now()] of the request. *)
Definition saved_path (env : Env) (tick : nat) (upload : FileStorage) : string :=
  os_path_join (UPLOAD_FOLDER env)
    (now env tick +:+ "_" +:+ secure_filename env (upload_filename upload)).

Fixpoint saved_paths (env : Env) (tick : nat) (files : list FileStorage) : list string :=
  match files with
  | [] => []
  | upload :: rest => saved_path env tick upload :: saved_paths env (S tick) rest
  end.

(** The file system after the uploads [files] were saved one after the
    other, the first at tick [tick]. *)
Fixpoint store_uploads (env : Env) (tick : nat) (files : list FileStorage)
    (fs : gmap string file) : gmap string file :=
  match files with
  | [] => fs
  | upload :: rest =>
      store_uploads env (S tick) rest (<[saved_path env tick upload := upload_stream upload]> fs)
  end.

(** The outcome of a request that is rejected at the upload [bad] after the
    uploads [saved] were stored: status 400 with a message that names [bad],
    every upload of [saved] present under its saved path, and every path
    that held a file before still holding one. *)
Definition rejected_after_saving (env : Env) (fs : gmap string file)
    (saved : list FileStorage) (bad : FileStorage) (message : string)
    (outcome : gmap string file * Response) : Prop :=
  outcome = (store_uploads env 0 saved fs,
             (JError (message +:+ upload_filename bad), 400)) ∧
  (∀ k upload, saved !! k = Some upload →
     is_Some (outcome.1 !! saved_path env k upload)) ∧
  (∀ path, is_Some (fs !! path) → is_Some (outcome.1 !! path)).

(** An environment for the examples: on the names used there werkzeug's
    [secure_filename] changes nothing. *)
Definition sample_env : Env :=
  {| secure_filename := fun name => name;
     UPLOAD_FOLDER := "/up";
     now := fun k => match k with
                     | O => "20250101_120000"
                     | S O => "20250101_120001"
                     | _ => "20250101_120002"
                     end;
     str_of_list := fun _ => "[...]";
     getsize_of := fun _ => 1024;
     pillow := sample_pillow;
     os_path_isdir := fun path => String.eqb path "/up" || String.eqb path "/up/" |}.

Definition upload_of (name : string) (content : file) : FileStorage :=
  {| upload_filename := name; upload_stream := content |}.

Definition split_request : Request :=
  {| req_files := {[ "file" := (upload_of "a.pdf" (PdfFile three_pages), []) ]};
     req_start_page := Some 2;
     req_end_page := None |}.

Definition broken_request : Request :=
  {| req_files := {[ "file" := (upload_of "notes.pdf" (OtherFile "plain text"), []) ]};
     req_start_page := None;
     req_end_page := None |}.

Definition merge_request : Request :=
  {| req_files := {[ "files[]" := (upload_of "a.pdf" (PdfFile three_pages),
                                   [upload_of "b.pdf" (PdfFile three_pages)]) ]};
     req_start_page := None;
     req_end_page := None |}.

(** A PDF whose title is stored as a byte string. *)
Definition scanned : Document :=
  {| pages := [PageBytes "scan"]; metadata := [("/Title", OtherValue "bytes")] |}.

Definition scanned_request : Request :=
  {| req_files := {[ "file" := (upload_of "scan.pdf" (PdfFile scanned), []) ]};
     req_start_page := None;
     req_end_page := None |}.

Definition mixed_request : Request :=
  {| req_files := {[ "files[]" := (upload_of "a.pdf" (PdfFile three_pages),
                                   [upload_of "b.txt" (OtherFile "plain text");
                                    upload_of "c.pdf" (PdfFile three_pages)]) ]};
     req_start_page := None;
     req_end_page := None |}.

(** * Properties *)

(** ** Results, indexing and ranges *)

Lemma getitem_in_range {A : Type} (xs : list A) (i : Z) (x : A) :
  0 ≤ i → xs !! Z.to_nat i = Some x → getitem xs i = Ok x.
Proof.
  intros Hi Hx. unfold getitem.
  assert (Z.to_nat i < List.length xs)%nat as Hlen by (eapply lookup_lt_Some; eauto).
  destruct (Z.ltb_spec i 0) as [|_]; [lia|].
  destruct (Z.ltb_spec i 0) as [|_]; [lia|].
  destruct (Z.leb_spec (Z.of_nat (List.length xs)) i) as [|_]; [lia|].
  simpl. by rewrite Hx.
Qed.

Lemma getitem_nil {A : Type} (i : Z) : getitem (@nil A) i = Raise IndexError.
Proof.
  unfold getitem. cbn [List.length].
  destruct (_ || _) eqn:Hcheck; [done|].
  apply orb_false_iff in Hcheck as [H1 H2].
  apply Z.ltb_ge in H1. apply Z.leb_gt in H2.
  destruct (i <? 0); lia.
Qed.

Lemma for_each_getitem_seqZ {A : Type} (xs : list A) (k : nat) (a : Z) :
  0 ≤ a → a + Z.of_nat k ≤ Z.of_nat (List.length xs) →
  for_each (getitem xs) (seqZ a (Z.of_nat k)) = Ok (take k (drop (Z.to_nat a) xs)).
Proof.
  revert a. induction k as [|k IH]; intros a Ha Hk.
  - by rewrite seqZ_nil.
  - rewrite seqZ_cons by lia.
    replace (Z.pred (Z.of_nat (S k))) with (Z.of_nat k) by lia.
    destruct (lookup_lt_is_Some_2 xs (Z.to_nat a)) as [x Hx]; [lia|].
    cbn [for_each]. rewrite (getitem_in_range xs a x) by done.
    cbn. rewrite IH by lia. cbn.
    replace (Z.to_nat (Z.succ a)) with (S (Z.to_nat a)) by lia.
    by rewrite (drop_S xs x (Z.to_nat a)).
Qed.

Lemma for_each_getitem_range {A : Type} (xs : list A) (a b : Z) :
  1 ≤ a → a ≤ b → b ≤ Z.of_nat (List.length xs) →
  for_each (getitem xs) (range (a - 1) b) = Ok (page_slice xs a b).
Proof.
  intros Ha Hab Hb. unfold range, page_slice.
  replace (b - (a - 1)) with (Z.of_nat (Z.to_nat (b - a + 1))) by lia.
  apply for_each_getitem_seqZ; lia.
Qed.

Lemma length_page_slice {A : Type} (xs : list A) (a b : Z) :
  1 ≤ a → a ≤ b → b ≤ Z.of_nat (List.length xs) →
  Z.of_nat (List.length (page_slice xs a b)) = b - a + 1.
Proof.
  intros Ha Hab Hb. unfold page_slice.
  rewrite length_take, length_drop. lia.
Qed.

Lemma lookup_page_slice {A : Type} (xs : list A) (a b : Z) (k : nat) :
  1 ≤ a → Z.of_nat k < b - a + 1 →
  page_slice xs a b !! k = xs !! (Z.to_nat (a - 1) + k)%nat.
Proof.
  intros Ha Hk. unfold page_slice.
  rewrite lookup_take_lt by lia. by rewrite lookup_drop.
Qed.

Lemma page_slice_all {A : Type} (xs : list A) :
  page_slice xs 1 (Z.of_nat (List.length xs)) = xs.
Proof.
  unfold page_slice. simpl. rewrite drop_0.
  apply take_ge. lia.
Qed.

(** ** [split_pdf] *)

Lemma split_bounds_in_range (total : Z) (s e : option Z) :
  1 ≤ total →
  1 ≤ (split_bounds total s e).1 ∧
  (split_bounds total s e).1 ≤ (split_bounds total s e).2 ∧
  (split_bounds total s e).2 ≤ total.
Proof. intros Ht. unfold split_bounds. destruct s, e; simpl; lia. Qed.

Lemma split_bounds_clamp (total s e : Z) :
  split_bounds total (Some s) (Some e)
  = (clamp s 1 total, Z.max (clamp s 1 total) (clamp e 1 total)).
Proof. unfold split_bounds, clamp. f_equal. lia. Qed.

Lemma split_bounds_empty (s e : option Z) : split_bounds 0 s e = (1, 1).
Proof. unfold split_bounds. destruct s, e; f_equal; lia. Qed.

Lemma split_pdf_ok (fs : gmap string file) (upload_folder pdf_path : string)
    (doc : Document) (s e : option Z) (output_filename : string) :
  fs !! pdf_path = Some (PdfFile doc) →
  1 ≤ Z.of_nat (List.length (pages doc)) →
  let total := Z.of_nat (List.length (pages doc)) in
  let output_path := os_path_join upload_folder output_filename in
  split_pdf fs upload_folder pdf_path s e output_filename
  = Ok (<[output_path :=
            PdfFile (written (page_slice (pages doc) (split_bounds total s e).1
                                                     (split_bounds total s e).2))]> fs,
        output_path).
Proof.
  intros Hdoc Htotal total output_path.
  destruct (split_bounds_in_range total s e Htotal) as (H1 & H2 & H3).
  unfold split_pdf, PdfReader. rewrite Hdoc.
  cbn [mbind result_bind]. fold total.
  destruct (split_bounds total s e) as [a b]. cbn [fst snd] in *.
  by rewrite for_each_getitem_range.
Qed.

Lemma split_pdf_empty (fs : gmap string file) (upload_folder pdf_path : string)
    (doc : Document) (s e : option Z) (output_filename : string) :
  fs !! pdf_path = Some (PdfFile doc) →
  pages doc = [] →
  split_pdf fs upload_folder pdf_path s e output_filename = Raise IndexError.
Proof.
  intros Hdoc Hnil. unfold split_pdf, PdfReader. rewrite Hdoc.
  cbn [mbind result_bind]. rewrite Hnil. cbn [List.length Z.of_nat].
  rewrite split_bounds_empty. unfold range.
  change (seqZ (1 - 1) (1 - (1 - 1))) with [0].
  cbn [for_each mbind result_bind]. by rewrite getitem_nil.
Qed.

Lemma split_pdf_no_range_identity (fs : gmap string file)
    (upload_folder pdf_path : string) (doc : Document) (output_filename : string) :
  fs !! pdf_path = Some (PdfFile doc) →
  pages doc ≠ [] →
  split_pdf fs upload_folder pdf_path None None output_filename
  = Ok (<[os_path_join upload_folder output_filename := PdfFile (written (pages doc))]> fs,
        os_path_join upload_folder output_filename).
Proof.
  intros Hdoc Hne.
  assert (1 ≤ Z.of_nat (List.length (pages doc))) as Htotal.
  { destruct (pages doc); [done | cbn [List.length]; lia]. }
  rewrite (split_pdf_ok _ _ _ doc) by done.
  replace (split_bounds _ None None)
    with (1, Z.of_nat (List.length (pages doc))).
  - cbn [fst snd]. by rewrite page_slice_all.
  - unfold split_bounds. f_equal; lia.
Qed.

(** C1 (as stated, refuted): on a stored PDF without pages the request
    (1, 1) does not produce a document of clamp(1,1,0) - clamp(1,1,0) + 1
    pages; [split_pdf] raises [IndexError] and writes nothing. *)
Lemma split_pdf_clamp_fails_without_pages :
  split_pdf sample_fs "/up" "/up/empty.pdf" (Some 1) (Some 1) "out.pdf" = Raise IndexError ∧
  clamp 1 1 0 - clamp 1 1 0 + 1 = 1 ∧
  ¬ ∃ fs' path out_doc,
      split_pdf sample_fs "/up" "/up/empty.pdf" (Some 1) (Some 1) "out.pdf" = Ok (fs', path) ∧
      fs' !! path = Some (PdfFile out_doc) ∧
      Z.of_nat (List.length (pages out_doc)) = clamp 1 1 0 - clamp 1 1 0 + 1.
Proof.
  assert (split_pdf sample_fs "/up" "/up/empty.pdf" (Some 1) (Some 1) "out.pdf"
          = Raise IndexError) as Hraise by (vm_compute; reflexivity).
  split; [exact Hraise|]. split; [reflexivity|].
  intros (fs' & path & out_doc & Hok & _). rewrite Hraise in Hok. discriminate.
Qed.

(** C1 (amended): for every stored PDF with at least one page and every
    requested range (s, e), [split_pdf] clamps the start into [1, total],
    clamps the end into [1, total] and then raises it to the clamped start,
    and writes a document whose pages are exactly pages start..end of the
    source, in order; its page count is end - start + 1, which is
    clamp(e,1,total) - clamp(s,1,total) + 1 whenever the clamped end is at
    least the clamped start. The call succeeds for every (s, e). *)
Theorem split_pdf_clamped_slice (fs : gmap string file)
    (upload_folder pdf_path : string) (doc : Document) (s e : Z)
    (output_filename : string) :
  fs !! pdf_path = Some (PdfFile doc) →
  1 ≤ Z.of_nat (List.length (pages doc)) →
  let total := Z.of_nat (List.length (pages doc)) in
  let first := clamp s 1 total in
  let last := Z.max first (clamp e 1 total) in
  split_bounds total (Some s) (Some e) = (first, last) ∧
  1 ≤ first ≤ total ∧ first ≤ last ≤ total ∧
  (first ≤ clamp e 1 total → last = clamp e 1 total) ∧
  ∃ out_doc,
    split_pdf fs upload_folder pdf_path (Some s) (Some e) output_filename
    = Ok (<[os_path_join upload_folder output_filename := PdfFile out_doc]> fs,
          os_path_join upload_folder output_filename) ∧
    pages out_doc = page_slice (pages doc) first last ∧
    Z.of_nat (List.length (pages out_doc)) = last - first + 1 ∧
    (first ≤ clamp e 1 total →
       Z.of_nat (List.length (pages out_doc)) = clamp e 1 total - clamp s 1 total + 1) ∧
    (∀ k : nat, Z.of_nat k < last - first + 1 →
       pages out_doc !! k = pages doc !! (Z.to_nat (first - 1) + k)%nat).
Proof.
  intros Hdoc Htotal total first last.
  assert (split_bounds total (Some s) (Some e) = (first, last)) as Hb
    by apply split_bounds_clamp.
  pose proof (split_bounds_in_range total (Some s) (Some e) Htotal) as Hr.
  rewrite Hb in Hr. cbn [fst snd] in Hr. destruct Hr as (H1 & H2 & H3).
  split; [exact Hb|]. split; [lia|]. split; [lia|].
  split; [subst last; lia|].
  exists (written (page_slice (pages doc) first last)).
  split.
  { rewrite (split_pdf_ok _ _ _ doc) by done. fold total. by rewrite Hb. }
  split; [reflexivity|]. cbn [pages written].
  split; [by apply length_page_slice|].
  split.
  - intros Hle. rewrite length_page_slice by done. subst last first. lia.
  - intros k Hk. by apply lookup_page_slice.
Qed.

Lemma split_pdf_clamped_slice_witness :
  ∃ out_doc,
    split_pdf sample_fs "/up" "/up/a.pdf" (Some 2) (Some 20) "out.pdf"
    = Ok (<["/up/out.pdf" := PdfFile out_doc]> sample_fs, "/up/out.pdf") ∧
    pages out_doc = [PageBytes "two"; PageBytes "three"].
Proof.
  destruct (split_pdf_clamped_slice sample_fs "/up" "/up/a.pdf" three_pages 2 20 "out.pdf")
    as (_ & _ & _ & _ & out_doc & Hrun & Hpages & _).
  - vm_compute; reflexivity.
  - simpl; lia.
  - exists out_doc. split; [exact Hrun | exact Hpages].
Defined.

(** C7: evaluated at the zero-page document. With both page parameters
    absent the call does not copy the (empty) page sequence: the clamping
    yields the range (1, 1) and the lookup of page index 0 raises. *)
Theorem split_pdf_no_range_empty_document :
  sample_fs !! "/up/empty.pdf" = Some (PdfFile no_pages) ∧
  pages no_pages = [] ∧
  split_bounds 0 None None = (1, 1) ∧
  split_pdf sample_fs "/up" "/up/empty.pdf" None None "split.pdf" = Raise IndexError.
Proof. repeat split; vm_compute; reflexivity. Qed.

(** C10: for a stored document with at least one page, every index that
    [split_pdf] looks up lies in [0, total_pages), every lookup succeeds and
    so does the call; for a document without pages the bounds become (1, 1),
    the only index looked up is 0, that lookup raises [IndexError], and the
    call fails with it. *)
Theorem split_pdf_indices_in_bounds (fs : gmap string file)
    (upload_folder pdf_path : string) (doc : Document) (s e : option Z)
    (output_filename : string) :
  fs !! pdf_path = Some (PdfFile doc) →
  let total := Z.of_nat (List.length (pages doc)) in
  let first := (split_bounds total s e).1 in
  let last := (split_bounds total s e).2 in
  (1 ≤ total →
     0 ≤ first - 1 ∧ last ≤ total ∧
     (∀ i, i ∈ range (first - 1) last →
           0 ≤ i < total ∧ is_ok (getitem (pages doc) i) = true) ∧
     is_ok (split_pdf fs upload_folder pdf_path s e output_filename) = true) ∧
  (total = 0 →
     first = 1 ∧ last = 1 ∧ range (first - 1) last = [0] ∧
     getitem (pages doc) 0 = Raise IndexError ∧
     split_pdf fs upload_folder pdf_path s e output_filename = Raise IndexError).
Proof.
  intros Hdoc total first last. split.
  - intros Htotal.
    destruct (split_bounds_in_range total s e Htotal) as (H1 & H2 & H3).
    fold first last in H1, H2, H3.
    split; [lia|]. split; [lia|]. split.
    + intros i Hi. unfold range in Hi. apply elem_of_seqZ in Hi.
      split; [lia|].
      destruct (lookup_lt_is_Some_2 (pages doc) (Z.to_nat i)) as [x Hx]; [lia|].
      rewrite (getitem_in_range _ i x); [done | lia | done].
    + by rewrite (split_pdf_ok _ _ _ doc).
  - intros Hzero.
    assert (pages doc = []) as Hnil.
    { destruct (pages doc); [done | subst total; cbn [List.length] in Hzero; lia]. }
    subst first last. rewrite Hzero, split_bounds_empty. cbn [fst snd].
    repeat split; try reflexivity.
    + rewrite Hnil. apply getitem_nil.
    + by apply (split_pdf_empty _ _ _ doc).
Qed.

Lemma split_pdf_indices_in_bounds_witness :
  is_ok (split_pdf sample_fs "/up" "/up/a.pdf" (Some 0) (Some 7) "out.pdf") = true ∧
  split_pdf sample_fs "/up" "/up/empty.pdf" (Some 0) (Some 7) "out.pdf" = Raise IndexError.
Proof.
  split.
  - refine (proj2 (proj2 (proj2 (proj1
      (split_pdf_indices_in_bounds sample_fs "/up" "/up/a.pdf" three_pages
         (Some 0) (Some 7) "out.pdf" _) _)))).
    + vm_compute; reflexivity.
    + simpl; lia.
  - refine (proj2 (proj2 (proj2 (proj2 (proj2
      (split_pdf_indices_in_bounds sample_fs "/up" "/up/empty.pdf" no_pages
         (Some 0) (Some 7) "out.pdf" _) _))))).
    + vm_compute; reflexivity.
    + reflexivity.
Defined.

(** ** Loops that stop at the first exception *)

Lemma for_each_all_ok {A B : Type} (f : A → result B) (xs : list A) (ys : list B) :
  Forall2 (fun x y => f x = Ok y) xs ys → for_each f xs = Ok ys.
Proof.
  induction 1 as [|x y xs ys Hx _ IH]; [done|].
  cbn [for_each]. rewrite Hx. cbn. rewrite IH. done.
Qed.

Lemma for_each_ok_inv {A B : Type} (f : A → result B) (xs : list A) (ys : list B) :
  for_each f xs = Ok ys → Forall2 (fun x y => f x = Ok y) xs ys.
Proof.
  revert ys. induction xs as [|x xs IH]; intros ys Hrun.
  - cbn in Hrun. injection Hrun as <-. constructor.
  - cbn [for_each] in Hrun. destruct (f x) as [y|] eqn:Hx; [|done].
    cbn in Hrun. destruct (for_each f xs) as [ys'|] eqn:Hxs; [|done].
    cbn in Hrun. injection Hrun as <-. constructor; [done|]. by apply IH.
Qed.

(** ** [merge_pdfs] *)

Lemma length_concat_pages (docs : list Document) :
  Z.of_nat (List.length (List.concat (map pages docs))) = total_page_count docs.
Proof.
  induction docs as [|doc docs IH]; [done|].
  cbn [map List.concat total_page_count foldr]. rewrite length_app.
  unfold total_page_count in IH. unfold page_count at 1. lia.
Qed.

Lemma merge_pdfs_run (fs : gmap string file) (upload_folder : string)
    (pdf_paths : list string) (output_filename : string) :
  pdf_paths ≠ [] →
  merge_pdfs fs upload_folder pdf_paths output_filename
  = (appended ← for_each (fun pdf_path => doc ← PdfReader fs pdf_path; Ok (pages doc))
                         pdf_paths;
     Ok (<[os_path_join upload_folder output_filename :=
             PdfFile (written (List.concat appended))]> fs,
         os_path_join upload_folder output_filename)).
Proof. by destruct pdf_paths. Qed.

(** C2: for every non-empty ordered list of stored PDF documents,
    [merge_pdfs] writes one document whose page sequence is the
    concatenation of the inputs' page sequences in input order, each
    document's own order kept, and whose page count is the sum of the
    inputs' page counts. *)
Theorem merge_pdfs_concatenates (fs : gmap string file) (upload_folder : string)
    (pdf_paths : list string) (docs : list Document) (output_filename : string) :
  pdf_paths ≠ [] →
  Forall2 (fun path doc => fs !! path = Some (PdfFile doc)) pdf_paths docs →
  ∃ out_doc,
    merge_pdfs fs upload_folder pdf_paths output_filename
    = Ok (<[os_path_join upload_folder output_filename := PdfFile out_doc]> fs,
          os_path_join upload_folder output_filename) ∧
    pages out_doc = List.concat (map pages docs) ∧
    page_count out_doc = total_page_count docs.
Proof.
  intros Hne Hdocs. exists (written (List.concat (map pages docs))).
  split; [|split].
  - rewrite merge_pdfs_run by done.
    rewrite (for_each_all_ok _ pdf_paths (map pages docs)); [done|].
    apply Forall2_fmap_r. eapply Forall2_impl; [exact Hdocs|].
    intros path doc Hdoc. unfold PdfReader. by rewrite Hdoc.
  - done.
  - apply length_concat_pages.
Qed.

Lemma merge_pdfs_concatenates_witness :
  ∃ out_doc,
    merge_pdfs sample_fs "/up" ["/up/a.pdf"; "/up/empty.pdf"; "/up/split.pdf"] "merged.pdf"
    = Ok (<["/up/merged.pdf" := PdfFile out_doc]> sample_fs, "/up/merged.pdf") ∧
    pages out_doc = (pages three_pages ++ pages three_pages)%list ∧
    page_count out_doc = 6.
Proof.
  destruct (merge_pdfs_concatenates sample_fs "/up"
              ["/up/a.pdf"; "/up/empty.pdf"; "/up/split.pdf"]
              [three_pages; no_pages; three_pages] "merged.pdf")
    as (out_doc & Hrun & Hpages & Hcount).
  - discriminate.
  - repeat constructor; vm_compute; reflexivity.
  - exists out_doc. split; [exact Hrun|]. split; [exact Hpages | exact Hcount].
Defined.

(** ** [images_to_pdf] *)

(** Opening a stored image and running the loop body on it: the pixels are
    decoded unless the image is RGB, which is appended as it was opened. *)
Lemma open_and_convert (fs : gmap string file) (path : string) (d : ImageData) :
  fs !! path = Some (ImageFile d) →
  (img ← Image_open fs path; append_rgb img)
  = if im_intact d || String.eqb (im_mode d) "RGB" then Ok (rgb_version d)
    else Raise OSError.
Proof.
  intros Hfile. unfold Image_open. rewrite Hfile. cbn [mbind result_bind].
  unfold append_rgb, rgb_version, load. cbn [img_mode img_size loads].
  destruct d as [mode size more pixels intact]. cbn [im_mode im_size im_intact].
  destruct (String.eqb_spec mode "RGBA") as [-> | _]; [by destruct intact|].
  destruct (String.eqb_spec mode "LA") as [-> | _]; [by destruct intact|].
  destruct (String.eqb_spec mode "P") as [-> | _]; [by destruct intact|].
  destruct (String.eqb mode "RGB"), intact; done.
Qed.


Lemma rgb_version_loads (d : ImageData) :
  loads (rgb_version d) = im_intact d || negb (String.eqb (im_mode d) "RGB").
Proof.
  unfold rgb_version. destruct d as [mode size more pixels intact].
  cbn [im_mode im_size im_intact].
  destruct (String.eqb_spec mode "RGBA") as [-> | _]; [by destruct intact|].
  destruct (String.eqb_spec mode "LA") as [-> | _]; [by destruct intact|].
  destruct (String.eqb_spec mode "P") as [-> | _]; [by destruct intact|].
  cbn [orb]. destruct (String.eqb mode "RGB"); cbn [loads im_intact negb].
  - by rewrite orb_false_r.
  - by rewrite orb_true_r.
Qed.

(** The pages PIL makes of the image that stands for [d], mode by mode. *)
Lemma pages_of_rgb_version (save_all : bool) (d : ImageData) :
  let img := Opened d in
  let white := New "RGB" (im_size d) (255, 255, 255) in
  let group := pages_of 100 save_all (rgb_version d) in
  (im_mode d = "RGBA" →
     group = [PageOfImage 100 (Paste white img (Some (LastBand img))) 0%nat]) ∧
  (im_mode d = "LA" ∨ im_mode d = "P" →
     group = [PageOfImage 100 (Paste white img None) 0%nat]) ∧
  (im_mode d = "RGB" →
     group = map (PageOfImage 100 img)
                 (seq 0 (if save_all then S (im_more d) else 1%nat))) ∧
  (im_mode d ≠ "RGBA" → im_mode d ≠ "LA" → im_mode d ≠ "P" → im_mode d ≠ "RGB" →
     group = [PageOfImage 100 (Convert img "RGB") 0%nat]).
Proof.
  intros img white group. subst img white group. unfold pages_of, rgb_version.
  split; [|split; [|split]].
  - intros ->. by destruct save_all.
  - intros [-> | ->]; by destruct save_all.
  - intros ->. by destruct save_all.
  - intros HA HLA HP HRGB.
    apply String.eqb_neq in HA, HLA, HP, HRGB. rewrite HA, HLA, HP, HRGB.
    by destruct save_all.
Qed.

Lemma pages_of_not_empty (save_all : bool) (im : Image) :
  (1 ≤ List.length (pages_of 100 save_all im))%nat.
Proof.
  unfold pages_of. destruct save_all; [|done].
  rewrite length_map, length_seq. destruct im; cbn [n_frames]; lia.
Qed.

Lemma pages_of_single (save_all : bool) (d : ImageData) :
  save_all = false ∨ (im_mode d = "RGB" → im_more d = 0%nat) →
  pages_of 100 save_all (rgb_version d) = [PageOfImage 100 (rgb_version d) 0%nat].
Proof.
  intros Hone. unfold pages_of. destruct save_all; [|done].
  destruct Hone as [Hno | Hone]; [done|].
  assert (n_frames (rgb_version d) = 1%nat) as ->; [|done].
  unfold rgb_version. destruct (String.eqb (im_mode d) "RGBA"); [done|].
  destruct (_ || _); [done|].
  destruct (String.eqb_spec (im_mode d) "RGB") as [Hmode | _]; [|done].
  cbn [n_frames]. by rewrite Hone.
Qed.

Lemma length_concat_groups {A B : Type} (f : A → list B) (xs : list A) :
  (∀ x, 1 ≤ List.length (f x))%nat →
  (List.length xs ≤ List.length (List.concat (map f xs)))%nat.
Proof.
  intros Hf. induction xs as [|x xs IH]; [done|].
  cbn [map List.concat List.length]. rewrite length_app.
  specialize (Hf x). lia.
Qed.

Lemma concat_singletons {A B : Type} (f : A → list B) (g : A → B) (xs : list A) :
  Forall (fun x => f x = [g x]) xs → List.concat (map f xs) = map g xs.
Proof.
  induction 1 as [|x xs Hx _ IH]; [done|].
  cbn [map List.concat]. by rewrite Hx, IH.
Qed.

(** The call once the loop has run through: the images are saved. *)
Lemma images_to_pdf_run (pil : Pillow) (fs : gmap string file) (upload_folder : string)
    (image_paths : list string) (images : list Image) (output_filename : string) :
  image_paths ≠ [] →
  for_each (fun img_path => img ← Image_open fs img_path; append_rgb img) image_paths
  = Ok images →
  let output_path := os_path_join upload_folder output_filename in
  let save_all := negb (Z.of_nat (List.length images) =? 1) in
  images_to_pdf pil fs upload_folder image_paths output_filename
  = if forallb loads images
    then (<[output_path :=
              PdfFile {| pages := List.concat (map (pages_of 100 save_all) images);
                         metadata := pdf_information pil output_path |}]> fs,
          Ok output_path)
    else (partial_alter (failed_save pil images) output_path fs, Raise OSError).
Proof.
  intros Hne Hloop output_path save_all. subst save_all.
  assert (List.length image_paths = List.length images) as Hlen.
  { by apply for_each_ok_inv, Forall2_length in Hloop. }
  destruct image_paths as [|p ps]; [done|].
  unfold images_to_pdf. rewrite Hloop. fold output_path.
  destruct images as [|first [|second rest]]; [done | |].
  - rewrite (getitem_in_range _ 0 first) by done.
    change (Z.of_nat (List.length [first]) =? 1) with true.
    unfold Image_save. cbn [negb forallb]. by destruct (loads first).
  - rewrite (getitem_in_range _ 0 first) by done.
    destruct (Z.eqb_spec (Z.of_nat (List.length (first :: second :: rest))) 1) as [Hone|_].
    { cbn [List.length] in Hone. lia. }
    unfold Image_save. cbn [negb drop].
    by destruct (forallb loads (first :: second :: rest)).
Qed.

Lemma images_to_pdf_loop_raises (pil : Pillow) (fs : gmap string file)
    (upload_folder : string) (image_paths : list string) (output_filename : string)
    (e : exn) :
  for_each (fun img_path => img ← Image_open fs img_path; append_rgb img) image_paths
  = Raise e →
  images_to_pdf pil fs upload_folder image_paths output_filename = (fs, Raise e).
Proof.
  intros Hloop. destruct image_paths as [|p ps]; [done|].
  unfold images_to_pdf. by rewrite Hloop.
Qed.

(** The call on stored images whose pixel data decodes. *)
Lemma images_to_pdf_decodable (pil : Pillow) (fs : gmap string file)
    (upload_folder : string) (image_paths : list string) (ds : list ImageData)
    (output_filename : string) :
  image_paths ≠ [] →
  Forall2 (fun path d => fs !! path = Some (ImageFile d)) image_paths ds →
  Forall (fun d => im_intact d = true) ds →
  let output_path := os_path_join upload_folder output_filename in
  let several := negb (Z.of_nat (List.length image_paths) =? 1) in
  images_to_pdf pil fs upload_folder image_paths output_filename
  = (<[output_path :=
         PdfFile {| pages := List.concat
                               (map (fun d => pages_of 100 several (rgb_version d)) ds);
                    metadata := pdf_information pil output_path |}]> fs,
     Ok output_path).
Proof.
  intros Hne Hstored Hintact output_path several.
  assert (for_each (fun img_path => img ← Image_open fs img_path; append_rgb img)
                   image_paths = Ok (map rgb_version ds)) as Hloop.
  { apply for_each_all_ok, Forall2_fmap_r.
    apply (Forall2_impl (fun path d => fs !! path = Some (ImageFile d)
                                       ∧ im_intact d = true)).
    - clear Hne. induction Hstored as [|path d paths ds' Hpath _ IH]; [constructor|].
      apply Forall_cons in Hintact as [Hd Hds]. constructor; [done | by apply IH].
    - intros path d [Hpath Hd]. by rewrite (open_and_convert fs path d Hpath), Hd. }
  rewrite (images_to_pdf_run pil fs upload_folder image_paths (map rgb_version ds))
    by done.
  assert (forallb loads (map rgb_version ds) = true) as ->.
  { apply forallb_forall. intros im [d [<- Hin]]%in_map_iff.
    apply List.Forall_forall with (x := d) in Hintact; [|done].
    by rewrite rgb_version_loads, Hintact. }
  fold output_path. rewrite length_map, map_map.
  apply Forall2_length in Hstored. rewrite <- Hstored. done.
Qed.




(** ** Failures of [images_to_pdf] and [merge_pdfs] *)









(** ** What the operations write *)

Lemma writes_one_file_intro (fs : gmap string file) (upload_folder output_filename : string)
    {A : Type} (body : result A) (make : A → Document) :
  writes_one_file fs upload_folder output_filename
    (a ← body;
     Ok (<[os_path_join upload_folder output_filename := PdfFile (make a)]> fs,
         os_path_join upload_folder output_filename)).
Proof.
  intros fs' path Hrun. destruct body as [a|e]; [|done].
  cbn in Hrun. injection Hrun as <- <-.
  split; [done|]. split; [by eexists|].
  intros other Hother. by rewrite lookup_insert_ne.
Qed.

(** What [images_to_pdf] changes, whether it succeeds or fails. *)
Lemma images_to_pdf_writes (pil : Pillow) (fs : gmap string file) (upload_folder : string)
    (image_paths : list string) (output_filename : string) :
  let output_path := os_path_join upload_folder output_filename in
  let run := images_to_pdf pil fs upload_folder image_paths output_filename in
  (∀ other, other ≠ output_path → run.1 !! other = fs !! other) ∧
  (∀ path, run.2 = Ok path →
     path = output_path ∧ ∃ doc, run.1 = <[output_path := PdfFile doc]> fs) ∧
  (∀ err, run.2 = Raise err → err ≠ OSError → run.1 = fs).
Proof.
  intros output_path run. subst run.
  destruct image_paths as [|p ps] eqn:Hpaths.
  { cbn. split; [done|]. split; [intros path [=] | done]. }
  rewrite <- Hpaths.
  assert (image_paths ≠ []) as Hne by (by subst).
  destruct (for_each (fun img_path => img ← Image_open fs img_path; append_rgb img)
                     image_paths) as [images|e] eqn:Hloop.
  - rewrite (images_to_pdf_run pil fs upload_folder image_paths images) by done.
    fold output_path. destruct (forallb loads images); cbn [fst snd].
    + split; [intros other Hother; by rewrite lookup_insert_ne|].
      split; [intros path [= <-]; split; [done | by eexists]|]. intros err [=].
    + split; [intros other Hother; by rewrite lookup_partial_alter_ne|].
      split; [intros path [=]|]. intros err [= <-] Herr. done.
  - rewrite (images_to_pdf_loop_raises pil fs upload_folder image_paths _ e) by done.
    cbn [fst snd]. split; [done|]. split; [intros path [=] | done].
Qed.

Lemma merge_pdfs_writes_one_file (fs : gmap string file) (upload_folder : string)
    (pdf_paths : list string) (output_filename : string) :
  writes_one_file fs upload_folder output_filename
    (merge_pdfs fs upload_folder pdf_paths output_filename).
Proof.
  destruct pdf_paths as [|p ps] eqn:Hpaths; [by intros ? ? ?|].
  rewrite <- Hpaths. rewrite merge_pdfs_run by by subst.
  apply (writes_one_file_intro fs upload_folder output_filename _
           (fun appended => written (List.concat appended))).
Qed.

Lemma split_pdf_writes_one_file (fs : gmap string file) (upload_folder pdf_path : string)
    (s e : option Z) (output_filename : string) :
  writes_one_file fs upload_folder output_filename
    (split_pdf fs upload_folder pdf_path s e output_filename).
Proof.
  unfold split_pdf. destruct (PdfReader fs pdf_path) as [reader|err]; [|by intros ? ? ?].
  cbn [mbind result_bind].
  destruct (split_bounds _ s e) as [a b].
  apply (writes_one_file_intro fs upload_folder output_filename _ written).
Qed.

(** C8 (as stated, refuted): an input stored under the output path is
    overwritten. Splitting page 1 out of the three-page [/up/split.pdf] into
    the output name [split.pdf] of the same folder leaves a one-page file at
    the input path. *)
Lemma split_pdf_overwrites_aliased_input :
  sample_fs !! "/up/split.pdf" = Some (PdfFile three_pages) ∧
  split_pdf sample_fs "/up" "/up/split.pdf" (Some 1) (Some 1) "split.pdf"
  = Ok (<["/up/split.pdf" := PdfFile (written [PageBytes "one"])]> sample_fs,
        "/up/split.pdf") ∧
  (<["/up/split.pdf" := PdfFile (written [PageBytes "one"])]> sample_fs) !! "/up/split.pdf"
  ≠ sample_fs !! "/up/split.pdf".
Proof.
  assert (sample_fs !! "/up/split.pdf" = Some (PdfFile three_pages)) as Hinput
    by (vm_compute; reflexivity).
  split; [exact Hinput|]. split.
  - rewrite (split_pdf_ok _ _ _ three_pages) by (exact Hinput || (simpl; lia)).
    reflexivity.
  - rewrite lookup_insert_eq, Hinput. discriminate.
Qed.

(** C8 (amended): a successful [images_to_pdf], [merge_pdfs] or [split_pdf]
    returns [os.path.join(upload_folder, output_filename)], stores one PDF
    there and leaves the file under every other path as it was, so every
    input that is not stored at the output path itself is unchanged. A call
    of [images_to_pdf] that fails leaves every path other than the output
    path as it was, too, and the whole storage when the exception is not an
    [OSError]. [get_pdf_info] writes no file: it returns the page count,
    the metadata and the size read from its input. *)
Theorem conversions_write_only_output (pil : Pillow) (fs : gmap string file)
    (upload_folder : string) (paths : list string) (pdf_path : string) (s e : option Z)
    (output_filename : string) (getsize : file → Z) :
  let output_path := os_path_join upload_folder output_filename in
  let img_run := images_to_pdf pil fs upload_folder paths output_filename in
  (∀ other, other ≠ output_path → img_run.1 !! other = fs !! other) ∧
  (∀ path, img_run.2 = Ok path →
     path = output_path ∧ ∃ doc, img_run.1 = <[output_path := PdfFile doc]> fs) ∧
  (∀ err, img_run.2 = Raise err → err ≠ OSError → img_run.1 = fs) ∧
  writes_one_file fs upload_folder output_filename
    (merge_pdfs fs upload_folder paths output_filename) ∧
  writes_one_file fs upload_folder output_filename
    (split_pdf fs upload_folder pdf_path s e output_filename) ∧
  (∀ info, get_pdf_info getsize fs pdf_path = Ok info →
     ∃ doc, fs !! pdf_path = Some (PdfFile doc) ∧
            info = {| info_pages := page_count doc;
                      info_metadata := metadata doc;
                      info_size_bytes := getsize (PdfFile doc) |}).
Proof.
  intros output_path img_run.
  destruct (images_to_pdf_writes pil fs upload_folder paths output_filename)
    as (Hframe & Hsuccess & Hfailure).
  split; [exact Hframe|]. split; [exact Hsuccess|]. split; [exact Hfailure|].
  split; [apply merge_pdfs_writes_one_file|].
  split; [apply split_pdf_writes_one_file|].
  intros info Hinfo. unfold get_pdf_info, PdfReader in Hinfo.
  destruct (fs !! pdf_path) as [[doc| |]|] eqn:Hfile; try done.
  cbn in Hinfo. injection Hinfo as <-. by exists doc.
Qed.

Lemma conversions_write_only_output_witness :
  (images_to_pdf sample_pillow sample_fs "/up" ["/up/rgb.jpg"; "/up/cut.jpg"] "out.pdf").1
    !! "/up/rgb.jpg" = Some (ImageFile rgb_image) ∧
  ∃ fs',
    merge_pdfs sample_fs "/up" ["/up/a.pdf"; "/up/split.pdf"] "merged.pdf"
    = Ok (fs', "/up/merged.pdf") ∧
    fs' !! "/up/a.pdf" = Some (PdfFile three_pages) ∧
    fs' !! "/up/split.pdf" = Some (PdfFile three_pages).
Proof.
  assert (is_ok (merge_pdfs sample_fs "/up" ["/up/a.pdf"; "/up/split.pdf"] "merged.pdf")
          = true) as Hok by (vm_compute; reflexivity).
  destruct (merge_pdfs sample_fs "/up" ["/up/a.pdf"; "/up/split.pdf"] "merged.pdf")
    as [[fs' path]|err] eqn:Hrun; [clear Hok | discriminate Hok].
  destruct (conversions_write_only_output sample_pillow sample_fs "/up"
              ["/up/a.pdf"; "/up/split.pdf"] "/up/a.pdf" None None "merged.pdf"
              (fun _ => 0))
    as (_ & _ & _ & Hmerge & _).
  destruct (conversions_write_only_output sample_pillow sample_fs "/up"
              ["/up/rgb.jpg"; "/up/cut.jpg"] "/up/a.pdf" None None "out.pdf"
              (fun _ => 0))
    as (Himages & _).
  split.
  - rewrite Himages; [vm_compute; reflexivity | intros Heq; discriminate Heq].
  - destruct (Hmerge fs' path Hrun) as (Hpath & _ & Hframe).
    clear Hmerge Hrun Himages. exists fs'.
    assert (path = "/up/merged.pdf") as -> by (rewrite Hpath; vm_compute; reflexivity).
    split; [reflexivity|].
    split; (rewrite Hframe; [vm_compute; reflexivity | intros Heq; discriminate Heq]).
Defined.

(** ** [allowed_file] *)

Lemma rsplit_last_None (c : ascii) (s : string) :
  str_contains c s = false → rsplit_last c s = None.
Proof.
  induction s as [|a rest IH]; [done|]. cbn [str_contains rsplit_last].
  intros [Ha Hrest]%orb_false_iff. by rewrite IH, Ha.
Qed.

(** The split point found by [rsplit_last] is the last separator. *)
Lemma rsplit_last_app (c : ascii) (head tail : string) :
  str_contains c tail = false →
  rsplit_last c (head +:+ String c tail) = Some (head, tail).
Proof.
  intros Htail. induction head as [|a head IH].
  - simpl. rewrite rsplit_last_None by done. by rewrite Ascii.eqb_refl.
  - simpl. by rewrite IH.
Qed.

Lemma rsplit_last_Some (c : ascii) (s : string) :
  str_contains c s = true →
  ∃ head tail, s = head +:+ String c tail ∧ str_contains c tail = false.
Proof.
  induction s as [|a rest IH]; [done|]. cbn [str_contains]. intros Hs.
  destruct (str_contains c rest) eqn:Hrest.
  - destruct IH as (head & tail & -> & Htail); [done|].
    by exists (String a head), tail.
  - rewrite orb_false_r in Hs. apply Ascii.eqb_eq in Hs as ->.
    by exists EmptyString, rest.
Qed.

Lemma str_contains_app (c : ascii) (head tail : string) :
  str_contains c (head +:+ String c tail) = true.
Proof.
  induction head as [|a head IH]; simpl.
  - by rewrite Ascii.eqb_refl.
  - rewrite IH. apply orb_true_r.
Qed.

Lemma allowed_file_ext (head ext file_type : string) :
  str_contains "." ext = false →
  allowed_file (head +:+ String "." ext) file_type
  = Ok (if String.eqb file_type "image" then
          bool_decide (lower ext ∈ ALLOWED_IMAGE_EXTENSIONS)
        else if String.eqb file_type "pdf" then
          bool_decide (lower ext ∈ ALLOWED_PDF_EXTENSIONS)
        else bool_decide (lower ext ∈ ALLOWED_IMAGE_EXTENSIONS ∪ ALLOWED_PDF_EXTENSIONS)).
Proof.
  intros Hext. unfold allowed_file, rsplit1.
  rewrite str_contains_app, rsplit_last_app by done.
  cbn [negb]. rewrite (getitem_in_range _ 1 ext) by done.
  cbn [mbind result_bind].
  destruct (String.eqb file_type "image"); [done|].
  by destruct (String.eqb file_type "pdf").
Qed.

(** C6: [allowed_file] returns false for every name without a ['.'] whatever
    the kind; a name with a ['.'] is [head ++ "." ++ ext] with no ['.'] in
    [ext], and for it the answer is true exactly when the lowercased [ext]
    is png, jpg or jpeg for kind image, and exactly when it is pdf for kind
    pdf. So [setup.EXE] is rejected for kind image, while [photo.JPG] is
    accepted. *)
Theorem allowed_file_spec (filename : string) :
  (str_contains "." filename = false →
     ∀ file_type, allowed_file filename file_type = Ok false) ∧
  (str_contains "." filename = true →
     ∃ head ext, filename = head +:+ "." +:+ ext ∧ str_contains "." ext = false) ∧
  (∀ head ext, filename = head +:+ "." +:+ ext → str_contains "." ext = false →
     allowed_file filename "image"
     = Ok (bool_decide (lower ext = "png" ∨ lower ext = "jpg" ∨ lower ext = "jpeg")) ∧
     allowed_file filename "pdf" = Ok (bool_decide (lower ext = "pdf"))) ∧
  allowed_file "setup.EXE" "image" = Ok false ∧
  allowed_file "photo.JPG" "image" = Ok true.
Proof.
  split; [|split; [|split]].
  - intros Hdot file_type. unfold allowed_file. by rewrite Hdot.
  - apply rsplit_last_Some.
  - intros head ext -> Hext. change ("." +:+ ext) with (String "." ext).
    rewrite !allowed_file_ext by done. cbn [String.eqb].
    split; f_equal; apply bool_decide_ext;
      unfold ALLOWED_IMAGE_EXTENSIONS, ALLOWED_PDF_EXTENSIONS;
      rewrite ?elem_of_union, ?elem_of_singleton; tauto.
  - split; vm_compute; reflexivity.
Qed.

Lemma allowed_file_spec_witness :
  allowed_file "report.final.PdF" "pdf" = Ok true ∧
  allowed_file "report.final.PdF" "image" = Ok false ∧
  allowed_file "README" "pdf" = Ok false.
Proof.
  destruct (allowed_file_spec "report.final.PdF") as (_ & _ & Hext & _).
  destruct (Hext "report.final" "PdF") as [Himage Hpdf]; [reflexivity | reflexivity |].
  destruct (allowed_file_spec "README") as (Hnone & _).
  split; [rewrite Hpdf; vm_compute; reflexivity|].
  split; [rewrite Himage; vm_compute; reflexivity|].
  apply Hnone. reflexivity.
Defined.

(** ** One sweep of [cleanup_old_files] *)

Section Sweep.
Variable self : FileCleanupService.
Variable current_time : Z.

Lemma sweep_step_directory (entries : gmap string entry) (count : Z) (filename : string) :
  sweep_step self current_time {| disk := Directory entries; deleted_count := count |}
             filename
  = match entries !! filename with
    | Some e =>
        if swept self current_time e
        then ({| disk := Directory (delete filename entries);
                 deleted_count := count + 1 |}, None)
        else ({| disk := Directory entries; deleted_count := count |}, None)
    | None => ({| disk := Directory entries; deleted_count := count |}, None)
    end.
Proof.
  unfold sweep_step, os_path_isfile, os_path_getmtime, os_remove, swept.
  cbn [disk deleted_count folder_entries].
  destruct (entries !! filename) as [e|]; [|done].
  destruct (is_file e); [|done]. cbn [negb andb].
  destruct (max_age_seconds self <? current_time - mtime e); [|done].
  by destruct (removable e).
Qed.

Lemma sweep_loop_directory (filenames : list string) :
  NoDup filenames →
  ∀ (entries : gmap string entry) (count : Z),
    sweep_loop self current_time filenames
               {| disk := Directory entries; deleted_count := count |}
    = ({| disk := Directory (filter (survives self current_time filenames) entries);
          deleted_count :=
            count + (Z.of_nat (size entries)
                     - Z.of_nat (size (filter (survives self current_time filenames) entries))) |},
       None).
Proof.
  induction 1 as [|filename rest Hfresh Hnodup IH]; intros entries count.
  - cbn [sweep_loop]. rewrite map_filter_id.
    + do 2 f_equal. lia.
    + intros i x _ [Hin _]. by apply not_elem_of_nil in Hin.
  - cbn [sweep_loop]. rewrite sweep_step_directory.
    assert (∀ m : gmap string entry,
              (∀ e, m !! filename = Some e → swept self current_time e = false) →
              filter (survives self current_time rest) m = filter (survives self current_time (filename :: rest)) m)
      as Hsame.
    { intros m Hm. apply map_filter_ext. intros i x Hix. unfold survives. cbn [fst snd].
      rewrite elem_of_cons. split.
      - intros Hkeep [[-> | Hin] Hswept]; [|tauto].
        rewrite (Hm x Hix) in Hswept. done.
      - tauto. }
    destruct (entries !! filename) as [e|] eqn:Hentry.
    + destruct (swept self current_time e) eqn:Hswept.
      * rewrite IH.
        assert (filter (survives self current_time rest) (delete filename entries)
                = filter (survives self current_time (filename :: rest)) entries) as ->.
        { apply map_filter_strong_ext. intros i x. unfold survives. cbn [fst snd].
          rewrite elem_of_cons. destruct (decide (i = filename)) as [->|Hne].
          - rewrite lookup_delete_eq, Hentry. split; [intros [_ ?]; done|].
            intros [Hkeep [= <-]]. exfalso. apply Hkeep. split; [by left | done].
          - rewrite lookup_delete_ne by done. tauto. }
        rewrite map_size_delete_Some by eauto.
        assert (size entries ≠ 0%nat) as Hsize.
        { intros Hzero%map_size_empty_inv. by rewrite Hzero, lookup_empty in Hentry. }
        do 2 f_equal. lia.
      * rewrite IH, (Hsame entries); [done|]. intros e' He'. congruence.
    + rewrite IH, (Hsame entries); [done|]. intros e' He'. congruence.
Qed.

Lemma filter_survives_listing (entries : gmap string entry) :
  filter (survives self current_time (map_to_list entries).*1) entries
  = filter (fun p => swept self current_time p.2 = false) entries.
Proof.
  apply map_filter_ext. intros i x Hix. unfold survives. cbn [fst snd].
  assert (i ∈ (map_to_list entries).*1) as Hin.
  { apply list_elem_of_fmap. exists (i, x). split; [done|].
    by apply elem_of_map_to_list. }
  destruct (swept self current_time x); split; try done.
  - intros Hkeep. exfalso. by apply Hkeep.
  - intros _ [_ ?]. done.
Qed.

Lemma size_filter_swept (entries : gmap string entry) :
  (size (filter (fun p => swept self current_time p.2 = true) entries)
   + size (filter (fun p => swept self current_time p.2 = false) entries)
   = size entries)%nat.
Proof.
  pose proof (map_disjoint_filter_complement
                (fun p : string * entry => swept self current_time p.2 = true)
                entries) as Hsplit.
  apply map_size_disj_union in Hsplit.
  rewrite map_filter_union_complement in Hsplit. rewrite Hsplit.
  assert (filter (fun p => swept self current_time p.2 = false) entries
          = filter (fun p => ¬ swept self current_time p.2 = true) entries) as ->;
    [|done].
  apply map_filter_ext. intros i x _. cbn [snd].
  by destruct (swept self current_time x).
Qed.

(** The sweep of a directory, in closed form. *)
Lemma cleanup_old_files_directory (entries : gmap string entry) :
  cleanup_old_files self current_time (Directory entries)
  = (Directory (filter (fun p => swept self current_time p.2 = false) entries),
     Z.of_nat (size (filter (fun p => swept self current_time p.2 = true) entries))).
Proof.
  unfold cleanup_old_files. cbn [os_path_exists negb os_listdir].
  rewrite sweep_loop_directory by apply NoDup_fst_map_to_list.
  cbn [disk deleted_count]. rewrite filter_survives_listing.
  f_equal. pose proof (size_filter_swept entries). lia.
Qed.

Lemma cleanup_old_files_no_directory (w : folder) :
  w = NoFolder ∨ w = NotDirectory →
  cleanup_old_files self current_time w = (w, 0).
Proof. by intros [-> | ->]. Qed.
End Sweep.

Lemma swept_expired (self : FileCleanupService) (current_time : Z) (e : entry) :
  swept self current_time e = expired self current_time e && removable e.
Proof. done. Qed.

Lemma expired_spec (self : FileCleanupService) (current_time : Z) (e : entry) :
  expired self current_time e = true
  ↔ is_file e = true ∧ max_age_seconds self < current_time - mtime e.
Proof. unfold expired. rewrite andb_true_iff, Z.ltb_lt. done. Qed.

(** C5 (as stated, refuted): a regular file aged 45 minutes under a
    retention of 30 minutes whose removal fails is still in the folder after
    the sweep, and the sweep returns 0. *)
Lemma sweep_keeps_expired_file_that_cannot_be_removed :
  expired sample_service 2700 {| is_file := true; mtime := 0; removable := false |} = true ∧
  max_age_seconds sample_service < 2700 - 0 ∧
  cleanup_old_files sample_service 2700 (Directory locked_only)
  = (Directory locked_only, 0) ∧
  locked_only !! "locked.pdf"
  = Some {| is_file := true; mtime := 0; removable := false |}.
Proof.
  split; [vm_compute; reflexivity|]. split; [vm_compute; reflexivity|].
  split; vm_compute; reflexivity.
Qed.

(** C5 (amended): one sweep deletes exactly those regular files whose age
    (current time minus modification time) strictly exceeds the retention
    threshold and whose removal succeeds; every other entry, in particular
    every file not older than the threshold, stays as it was; the returned
    count is the number of files deleted; and the sweep returns zero,
    leaving everything as it was, when the storage area does not exist or is
    empty. *)
Theorem cleanup_old_files_spec (self : FileCleanupService) (current_time : Z) :
  cleanup_old_files self current_time NoFolder = (NoFolder, 0) ∧
  cleanup_old_files self current_time (Directory ∅) = (Directory ∅, 0) ∧
  ∀ entries : gmap string entry,
    ∃ (entries' : gmap string entry) (deleted : nat),
      cleanup_old_files self current_time (Directory entries)
      = (Directory entries', Z.of_nat deleted) ∧
      (∀ name, entries !! name = None → entries' !! name = None) ∧
      (∀ name e, entries !! name = Some e →
         (entries' !! name = None
            ↔ is_file e = true ∧ max_age_seconds self < current_time - mtime e
              ∧ removable e = true) ∧
         (entries' !! name = Some e
            ↔ ¬ (is_file e = true ∧ max_age_seconds self < current_time - mtime e
                 ∧ removable e = true)) ∧
         (current_time - mtime e ≤ max_age_seconds self → entries' !! name = Some e)) ∧
      deleted = size (filter (fun p => swept self current_time p.2 = true) entries) ∧
      (size entries' + deleted = size entries)%nat.
Proof.
  split; [done|]. split.
  { rewrite cleanup_old_files_directory. by rewrite !map_filter_empty, map_size_empty. }
  intros entries.
  exists (filter (fun p => swept self current_time p.2 = false) entries),
         (size (filter (fun p => swept self current_time p.2 = true) entries)).
  split; [apply cleanup_old_files_directory|].
  split; [|split; [|split]].
  - intros name Hname. apply map_lookup_filter_None. by left.
  - intros name e Hentry.
    assert (swept self current_time e = true
            ↔ is_file e = true ∧ max_age_seconds self < current_time - mtime e
              ∧ removable e = true) as Hswept.
    { rewrite swept_expired, andb_true_iff, expired_spec. tauto. }
    assert (filter (fun p => swept self current_time p.2 = false) entries !! name
            = if swept self current_time e then None else Some e) as Hlook.
    { destruct (swept self current_time e) eqn:Hs.
      - apply map_lookup_filter_None. right. intros x Hx. cbn [snd]. congruence.
      - apply map_lookup_filter_Some. done. }
    rewrite Hlook. rewrite <- Hswept.
    destruct (swept self current_time e) eqn:Hs.
    + split; [done|]. split; [split; [done | tauto]|].
      intros Hyoung. destruct Hswept as [Hold _]. specialize (Hold eq_refl). lia.
    + split; [split; done|]. split; [split; [done|]|done].
      intros _. done.
  - done.
  - pose proof (size_filter_swept self current_time entries). lia.
Qed.

Lemma cleanup_old_files_spec_witness :
  ∃ entries',
    cleanup_old_files sample_service 2700 (Directory sample_folder)
    = (Directory entries', 1) ∧
    entries' !! "old.pdf" = None ∧
    entries' !! "new.pdf" = sample_folder !! "new.pdf" ∧
    entries' !! "locked.pdf" = sample_folder !! "locked.pdf".
Proof.
  destruct (cleanup_old_files_spec sample_service 2700) as (_ & _ & Hsweep).
  destruct (Hsweep sample_folder)
    as (entries' & deleted & Hrun & _ & Hentries & Hdeleted & _).
  assert (size (filter (fun p => swept sample_service 2700 p.2 = true) sample_folder)
          = 1%nat) as Hone by (vm_compute; reflexivity).
  assert (sample_folder !! "old.pdf"
          = Some {| is_file := true; mtime := 0; removable := true |}) as Hold
    by (vm_compute; reflexivity).
  assert (sample_folder !! "new.pdf"
          = Some {| is_file := true; mtime := 2400; removable := true |}) as Hnew
    by (vm_compute; reflexivity).
  assert (sample_folder !! "locked.pdf"
          = Some {| is_file := true; mtime := 0; removable := false |}) as Hlocked
    by (vm_compute; reflexivity).
  rewrite Hone in Hdeleted. rewrite Hdeleted in Hrun.
  destruct (Hentries _ _ Hold) as (Hold' & _).
  destruct (Hentries _ _ Hnew) as (_ & _ & Hnew').
  destruct (Hentries _ _ Hlocked) as (_ & Hlocked' & _).
  exists entries'. split; [exact Hrun|]. split; [|split].
  - apply Hold'. vm_compute. split; [reflexivity | split; reflexivity].
  - rewrite Hnew. apply Hnew'. vm_compute. intros Hcmp. discriminate Hcmp.
  - rewrite Hlocked. apply Hlocked'. intros (_ & _ & Hremovable).
    discriminate Hremovable.
Defined.

(** C9: when the removal of one expired file fails, the sweep still ends
    with a count and no exception, and it has gone on over the remaining
    files: the failed file is still in the folder, every other entry is
    removed exactly when it is a regular file past the threshold whose
    removal succeeds and is unchanged otherwise, and the returned count is
    the number of files removed, the failed file not among them. The folder
    and the count are those of the sweep of the folder without the failed
    file, with that file put back. *)
Theorem sweep_isolates_failed_removal (self : FileCleanupService) (current_time : Z)
    (entries : gmap string entry) (name : string) (e : entry) :
  entries !! name = Some e →
  expired self current_time e = true →
  removable e = false →
  ∃ (entries' : gmap string entry) (deleted : nat),
    cleanup_old_files self current_time (Directory entries)
    = (Directory entries', Z.of_nat deleted) ∧
    entries' !! name = Some e ∧
    (∀ other o, other ≠ name → entries !! other = Some o →
       (is_file o = true ∧ max_age_seconds self < current_time - mtime o
        ∧ removable o = true → entries' !! other = None) ∧
       (¬ (is_file o = true ∧ max_age_seconds self < current_time - mtime o
           ∧ removable o = true) → entries' !! other = Some o)) ∧
    (∀ other, entries !! other = None → entries' !! other = None) ∧
    deleted = size (filter (fun p => swept self current_time p.2 = true)
                           (delete name entries)) ∧
    (size entries' + deleted = size entries)%nat ∧
    cleanup_old_files self current_time (Directory (delete name entries))
    = (Directory (delete name entries'), Z.of_nat deleted).
Proof.
  intros Hentry Hexpired Hlocked.
  assert (swept self current_time e = false) as Hswept.
  { by rewrite swept_expired, Hlocked, andb_false_r. }
  assert (filter (fun p => swept self current_time p.2 = true) (delete name entries)
          = filter (fun p => swept self current_time p.2 = true) entries) as Hcount.
  { apply map_filter_delete_not. intros y Hy. cbn [snd]. congruence. }
  exists (filter (fun p => swept self current_time p.2 = false) entries),
         (size (filter (fun p => swept self current_time p.2 = true) entries)).
  split; [apply cleanup_old_files_directory|].
  split; [by apply map_lookup_filter_Some|].
  split; [|split; [|split; [|split]]].
  - intros other o _ Hother.
    assert (swept self current_time o = true
            ↔ is_file o = true ∧ max_age_seconds self < current_time - mtime o
              ∧ removable o = true) as Hiff.
    { rewrite swept_expired, andb_true_iff, expired_spec. tauto. }
    rewrite <- Hiff. split.
    + intros Hs. apply map_lookup_filter_None. right. intros x Hx. cbn [snd]. congruence.
    + intros Hs. apply map_lookup_filter_Some. split; [done|]. cbn [snd].
      by destruct (swept self current_time o).
  - intros other Hother. apply map_lookup_filter_None. by left.
  - by rewrite Hcount.
  - pose proof (size_filter_swept self current_time entries). lia.
  - rewrite cleanup_old_files_directory, Hcount. by rewrite map_filter_delete.
Qed.

Lemma sweep_isolates_failed_removal_witness :
  ∃ entries',
    cleanup_old_files sample_service 2700 (Directory sample_folder)
    = (Directory entries', 1) ∧
    entries' !! "locked.pdf" = Some {| is_file := true; mtime := 0; removable := false |} ∧
    entries' !! "old.pdf" = None ∧
    entries' !! "new.pdf" = Some {| is_file := true; mtime := 2400; removable := true |}.
Proof.
  destruct (sweep_isolates_failed_removal sample_service 2700 sample_folder "locked.pdf"
              {| is_file := true; mtime := 0; removable := false |})
    as (entries' & deleted & Hrun & Hlocked & Hothers & _ & Hdeleted & _).
  - vm_compute; reflexivity.
  - vm_compute; reflexivity.
  - reflexivity.
  - assert (size (filter (fun p => swept sample_service 2700 p.2 = true)
                         (delete "locked.pdf" sample_folder)) = 1%nat) as Hone
      by (vm_compute; reflexivity).
    rewrite Hone in Hdeleted. rewrite Hdeleted in Hrun.
    exists entries'. split; [exact Hrun|]. split; [exact Hlocked|]. split.
    + refine (proj1 (Hothers "old.pdf" {| is_file := true; mtime := 0; removable := true |}
                       _ _) _).
      * intros Heq; discriminate Heq.
      * vm_compute; reflexivity.
      * vm_compute. split; [reflexivity | split; reflexivity].
    + refine (proj2 (Hothers "new.pdf"
                       {| is_file := true; mtime := 2400; removable := true |} _ _) _).
      * intros Heq; discriminate Heq.
      * vm_compute; reflexivity.
      * vm_compute. intros (_ & Hcmp & _). discriminate Hcmp.
Defined.

(** * Further properties of the converter *)

(** ** [delete_file] and [get_pdf_info] *)

Lemma delete_file_delete (fs : gmap string file) (filepath : string) :
  delete_file fs filepath = delete filepath fs.
Proof.
  unfold delete_file. case_bool_decide as Hthere; [done|].
  symmetry. apply delete_id. by apply eq_None_not_Some.
Qed.

(** X1: [delete_file] removes the file at the given path and nothing else;
    on a path that holds no file it changes nothing, so deleting twice is
    the same as deleting once. *)
Theorem delete_file_spec (fs : gmap string file) (filepath : string) :
  delete_file fs filepath !! filepath = None ∧
  (∀ other, other ≠ filepath → delete_file fs filepath !! other = fs !! other) ∧
  (fs !! filepath = None → delete_file fs filepath = fs) ∧
  delete_file (delete_file fs filepath) filepath = delete_file fs filepath.
Proof.
  rewrite !delete_file_delete. split; [apply lookup_delete_eq|].
  split; [intros other Hother; by apply lookup_delete_ne|].
  split; [apply delete_id|]. apply delete_id, lookup_delete_eq.
Qed.

Lemma get_pdf_info_pdf (getsize : file → Z) (fs : gmap string file) (pdf_path : string)
    (doc : Document) :
  fs !! pdf_path = Some (PdfFile doc) →
  get_pdf_info getsize fs pdf_path
  = Ok {| info_pages := page_count doc; info_metadata := metadata doc;
          info_size_bytes := getsize (PdfFile doc) |}.
Proof. intros Hdoc. unfold get_pdf_info, PdfReader. by rewrite Hdoc. Qed.

(** ** [split_pdf]: every outcome *)

(** X3: [split_pdf] has exactly four outcomes, decided by the input path
    alone: [FileNotFoundError] when no file is stored there, [PdfReadError]
    when the file is not a PDF, [IndexError] when the PDF has no pages, and
    otherwise success, whatever the requested range. Only on success is the
    file system changed. *)
Theorem split_pdf_outcomes (fs : gmap string file) (upload_folder pdf_path : string)
    (s e : option Z) (output_filename : string) :
  split_pdf fs upload_folder pdf_path s e output_filename
  = match fs !! pdf_path with
    | None => Raise FileNotFoundError
    | Some (PdfFile doc) =>
        match pages doc with
        | [] => Raise IndexError
        | _ =>
            let total := Z.of_nat (List.length (pages doc)) in
            Ok (<[os_path_join upload_folder output_filename :=
                    PdfFile (written (page_slice (pages doc)
                                        (split_bounds total s e).1
                                        (split_bounds total s e).2))]> fs,
                os_path_join upload_folder output_filename)
        end
    | Some _ => Raise PdfReadError
    end.
Proof.
  destruct (fs !! pdf_path) as [[doc|im|raw]|] eqn:Hfile;
    try (unfold split_pdf, PdfReader; by rewrite Hfile).
  destruct (pages doc) as [|page rest] eqn:Hpages.
  - by apply (split_pdf_empty _ _ _ doc).
  - rewrite (split_pdf_ok _ _ _ doc); [by rewrite Hpages | done |].
    rewrite Hpages. cbn [List.length]. lia.
Qed.

(** ** How the operations compose *)

Lemma merge_pdfs_ok (fs : gmap string file) (upload_folder : string)
    (pdf_paths : list string) (docs : list Document) (output_filename : string) :
  pdf_paths ≠ [] →
  Forall2 (fun path doc => fs !! path = Some (PdfFile doc)) pdf_paths docs →
  merge_pdfs fs upload_folder pdf_paths output_filename
  = Ok (<[os_path_join upload_folder output_filename :=
            PdfFile (written (List.concat (map pages docs)))]> fs,
        os_path_join upload_folder output_filename).
Proof.
  intros Hne Hdocs. rewrite merge_pdfs_run by done.
  rewrite (for_each_all_ok _ pdf_paths (map pages docs)); [done|].
  apply Forall2_fmap_r. eapply Forall2_impl; [exact Hdocs|].
  intros path doc Hdoc. unfold PdfReader. by rewrite Hdoc.
Qed.

(** X4: the page count [get_pdf_info] reports for the output of a
    successful [split_pdf] is last - first + 1 for the clamped bounds; it is
    at least 1 and at most the page count of the source. *)
Theorem get_pdf_info_after_split (getsize : file → Z) (fs : gmap string file)
    (upload_folder pdf_path : string) (doc : Document) (s e : option Z)
    (output_filename : string) :
  fs !! pdf_path = Some (PdfFile doc) →
  pages doc ≠ [] →
  ∃ fs' split_path info,
    split_pdf fs upload_folder pdf_path s e output_filename = Ok (fs', split_path) ∧
    get_pdf_info getsize fs' split_path = Ok info ∧
    info_pages info
    = (split_bounds (page_count doc) s e).2 - (split_bounds (page_count doc) s e).1 + 1 ∧
    1 ≤ info_pages info ≤ page_count doc.
Proof.
  intros Hdoc Hne. unfold page_count.
  assert (1 ≤ Z.of_nat (List.length (pages doc))) as Htotal.
  { destruct (pages doc); [done | cbn [List.length]; lia]. }
  destruct (split_bounds_in_range _ s e Htotal) as (H1 & H2 & H3).
  eexists _, _, _. split; [by apply (split_pdf_ok _ _ _ doc)|].
  split; [apply get_pdf_info_pdf, lookup_insert_eq|].
  cbn [info_pages]. unfold page_count. cbn [pages written].
  rewrite length_page_slice by done. lia.
Qed.

Lemma get_pdf_info_after_split_witness :
  ∃ fs' split_path info,
    split_pdf sample_fs "/up" "/up/a.pdf" (Some 2) None "out.pdf" = Ok (fs', split_path) ∧
    get_pdf_info (fun _ => 0) fs' split_path = Ok info ∧
    info_pages info = 2.
Proof.
  destruct (get_pdf_info_after_split (fun _ => 0) sample_fs "/up" "/up/a.pdf" three_pages
              (Some 2) None "out.pdf") as (fs' & split_path & info & Hsplit & Hinfo & Hpages & _).
  - vm_compute; reflexivity.
  - discriminate.
  - exists fs', split_path, info. split; [exact Hsplit|]. split; [exact Hinfo|].
    rewrite Hpages. vm_compute. reflexivity.
Defined.

(** X5: the page count [get_pdf_info] reports for the output of a
    successful [merge_pdfs] is the sum of the page counts of the inputs. *)
Theorem get_pdf_info_after_merge (getsize : file → Z) (fs : gmap string file)
    (upload_folder : string) (pdf_paths : list string) (docs : list Document)
    (output_filename : string) :
  pdf_paths ≠ [] →
  Forall2 (fun path doc => fs !! path = Some (PdfFile doc)) pdf_paths docs →
  ∃ fs' merged_path info,
    merge_pdfs fs upload_folder pdf_paths output_filename = Ok (fs', merged_path) ∧
    get_pdf_info getsize fs' merged_path = Ok info ∧
    info_pages info = total_page_count docs.
Proof.
  intros Hne Hdocs. eexists _, _, _.
  split; [by apply (merge_pdfs_ok _ _ _ docs)|].
  split; [apply get_pdf_info_pdf, lookup_insert_eq|].
  cbn [info_pages]. unfold page_count. cbn [pages written].
  apply length_concat_pages.
Qed.

Lemma get_pdf_info_after_merge_witness :
  ∃ fs' merged_path info,
    merge_pdfs sample_fs "/up" ["/up/a.pdf"; "/up/split.pdf"] "m.pdf" = Ok (fs', merged_path) ∧
    get_pdf_info (fun _ => 0) fs' merged_path = Ok info ∧
    info_pages info = 6.
Proof.
  destruct (get_pdf_info_after_merge (fun _ => 0) sample_fs "/up"
              ["/up/a.pdf"; "/up/split.pdf"] [three_pages; three_pages] "m.pdf")
    as (fs' & merged_path & info & Hmerge & Hinfo & Hpages).
  - discriminate.
  - repeat constructor; vm_compute; reflexivity.
  - exists fs', merged_path, info. split; [exact Hmerge|]. split; [exact Hinfo|].
    rewrite Hpages. vm_compute. reflexivity.
Defined.

Lemma page_slice_halves {A : Type} (xs : list A) (k : Z) :
  1 ≤ k →
  (page_slice xs 1 k ++ page_slice xs (k + 1) (Z.of_nat (List.length xs)))%list = xs.
Proof.
  intros Hk. unfold page_slice.
  replace (Z.to_nat (1 - 1)) with 0%nat by lia. rewrite drop_0.
  replace (Z.to_nat (k - 1 + 1)) with (Z.to_nat k) by lia.
  replace (Z.to_nat (k + 1 - 1)) with (Z.to_nat k) by lia.
  rewrite (take_ge (drop _ _)); [apply take_drop|].
  rewrite length_drop. lia.
Qed.

(** X6: splitting a document at page k into pages 1..k and k+1..n and
    merging the two parts, in that order, gives back the page sequence of
    the document, provided the first part is not written over the source
    and the two parts are written to different paths. *)
Theorem split_then_merge_restores_pages (fs : gmap string file)
    (upload_folder pdf_path : string) (doc : Document) (k : Z)
    (first_name second_name merged_name : string) :
  fs !! pdf_path = Some (PdfFile doc) →
  1 ≤ k < page_count doc →
  os_path_join upload_folder first_name ≠ pdf_path →
  os_path_join upload_folder first_name ≠ os_path_join upload_folder second_name →
  ∃ fs1 part1 fs2 part2 fs3 merged_path merged,
    split_pdf fs upload_folder pdf_path (Some 1) (Some k) first_name = Ok (fs1, part1) ∧
    split_pdf fs1 upload_folder pdf_path (Some (k + 1)) None second_name = Ok (fs2, part2) ∧
    merge_pdfs fs2 upload_folder [part1; part2] merged_name = Ok (fs3, merged_path) ∧
    fs3 !! merged_path = Some (PdfFile merged) ∧
    pages merged = pages doc.
Proof.
  intros Hdoc Hk Hsource Hparts. unfold page_count in Hk.
  set (n := Z.of_nat (List.length (pages doc))) in *.
  set (p1 := os_path_join upload_folder first_name) in *.
  set (p2 := os_path_join upload_folder second_name) in *.
  set (part_a := written (page_slice (pages doc) 1 k)).
  set (part_b := written (page_slice (pages doc) (k + 1) n)).
  exists (<[p1 := PdfFile part_a]> fs), p1,
         (<[p2 := PdfFile part_b]> (<[p1 := PdfFile part_a]> fs)), p2.
  eexists _, _, _.
  split.
  { rewrite (split_pdf_ok _ _ _ doc) by (done || lia). fold n.
    replace (split_bounds n (Some 1) (Some k)) with (1, k); [done|].
    unfold split_bounds. f_equal; lia. }
  split.
  { rewrite (split_pdf_ok _ _ _ doc); [| by rewrite lookup_insert_ne | lia]. fold n.
    replace (split_bounds n (Some (k + 1)) None) with (k + 1, n); [done|].
    unfold split_bounds. f_equal; lia. }
  split.
  { apply (merge_pdfs_ok _ _ _ [part_a; part_b]); [done|].
    constructor; [|constructor; [|constructor]].
    - rewrite lookup_insert_ne by done. apply lookup_insert_eq.
    - apply lookup_insert_eq. }
  split; [apply lookup_insert_eq|].
  cbn [pages written map List.concat]. rewrite app_nil_r.
  apply page_slice_halves. lia.
Qed.

Lemma split_then_merge_restores_pages_witness :
  ∃ fs1 part1 fs2 part2 fs3 merged_path merged,
    split_pdf sample_fs "/up" "/up/a.pdf" (Some 1) (Some 2) "head.pdf" = Ok (fs1, part1) ∧
    split_pdf fs1 "/up" "/up/a.pdf" (Some 3) None "tail.pdf" = Ok (fs2, part2) ∧
    merge_pdfs fs2 "/up" [part1; part2] "whole.pdf" = Ok (fs3, merged_path) ∧
    fs3 !! merged_path = Some (PdfFile merged) ∧
    pages merged = pages three_pages.
Proof.
  apply (split_then_merge_restores_pages sample_fs "/up" "/up/a.pdf" three_pages 2
           "head.pdf" "tail.pdf" "whole.pdf").
  - vm_compute; reflexivity.
  - vm_compute. split; [intros Hc; discriminate Hc | reflexivity].
  - vm_compute. intros Heq; discriminate Heq.
  - vm_compute. intros Heq; discriminate Heq.
Defined.

Lemma stored_pdfs_insert (fs : gmap string file) (paths : list string)
    (docs : list Document) (out : string) (f : file) :
  Forall2 (fun path doc => fs !! path = Some (PdfFile doc)) paths docs →
  out ∉ paths →
  Forall2 (fun path doc => <[out := f]> fs !! path = Some (PdfFile doc)) paths docs.
Proof.
  induction 1 as [|path doc paths docs Hdoc _ IH]; intros Hfresh; [constructor|].
  apply not_elem_of_cons in Hfresh as [Hne Hfresh].
  constructor; [by rewrite lookup_insert_ne | by apply IH].
Qed.

(** X7: merging in two steps gives the pages of merging in one: when a
    first group of PDFs is merged and the result is then merged, in front,
    with a second group, the final page sequence is that of merging both
    groups at once, provided the intermediate output is not written over a
    PDF of the second group. *)
Theorem merge_pdfs_in_two_steps (fs : gmap string file) (upload_folder : string)
    (paths1 paths2 : list string) (docs1 docs2 : list Document)
    (name1 name2 : string) :
  paths1 ≠ [] →
  Forall2 (fun path doc => fs !! path = Some (PdfFile doc)) paths1 docs1 →
  Forall2 (fun path doc => fs !! path = Some (PdfFile doc)) paths2 docs2 →
  os_path_join upload_folder name1 ∉ paths2 →
  ∃ fs1 out1 fs2 out2 fs' out' two_steps one_step,
    merge_pdfs fs upload_folder paths1 name1 = Ok (fs1, out1) ∧
    merge_pdfs fs1 upload_folder (out1 :: paths2) name2 = Ok (fs2, out2) ∧
    merge_pdfs fs upload_folder (paths1 ++ paths2) name2 = Ok (fs', out') ∧
    out2 = out' ∧
    fs2 !! out2 = Some (PdfFile two_steps) ∧
    fs' !! out' = Some (PdfFile one_step) ∧
    pages two_steps = pages one_step ∧
    pages one_step = List.concat (map pages (docs1 ++ docs2)).
Proof.
  intros Hne Hdocs1 Hdocs2 Hfresh.
  set (out1 := os_path_join upload_folder name1) in *.
  set (merged1 := written (List.concat (map pages docs1))).
  eexists _, _, _, _, _, _, _, _.
  split; [by apply (merge_pdfs_ok _ _ _ docs1)|].
  split.
  { apply (merge_pdfs_ok _ _ _ (merged1 :: docs2)); [done|].
    constructor; [apply lookup_insert_eq|]. by apply stored_pdfs_insert. }
  split.
  { apply (merge_pdfs_ok _ _ _ (docs1 ++ docs2)).
    - destruct paths1; done.
    - by apply Forall2_app. }
  split; [done|].
  split; [apply lookup_insert_eq|]. split; [apply lookup_insert_eq|].
  cbn [pages written map List.concat].
  by rewrite map_app, concat_app.
Qed.

Lemma merge_pdfs_in_two_steps_witness :
  ∃ fs1 out1 fs2 out2 fs' out' two_steps one_step,
    merge_pdfs sample_fs "/up" ["/up/a.pdf"] "ab.pdf" = Ok (fs1, out1) ∧
    merge_pdfs fs1 "/up" (out1 :: ["/up/split.pdf"]) "all.pdf" = Ok (fs2, out2) ∧
    merge_pdfs sample_fs "/up" (["/up/a.pdf"] ++ ["/up/split.pdf"]) "all.pdf"
    = Ok (fs', out') ∧
    out2 = out' ∧
    fs2 !! out2 = Some (PdfFile two_steps) ∧
    fs' !! out' = Some (PdfFile one_step) ∧
    pages two_steps = pages one_step ∧
    pages one_step = List.concat (map pages ([three_pages] ++ [three_pages])).
Proof.
  apply (merge_pdfs_in_two_steps sample_fs "/up" ["/up/a.pdf"] ["/up/split.pdf"]
           [three_pages] [three_pages] "ab.pdf" "all.pdf").
  - discriminate.
  - repeat constructor; vm_compute; reflexivity.
  - repeat constructor; vm_compute; reflexivity.
  - vm_compute. intros Hin.
    apply list_elem_of_singleton in Hin. discriminate Hin.
Defined.

(** ** The first bad input decides the failure *)

Lemma for_each_prefix_ok {A B : Type} (f : A → result B) (good : list A) (bad : A)
    (rest : list A) (err : exn) :
  Forall (fun x => is_ok (f x) = true) good →
  f bad = Raise err →
  for_each f (good ++ bad :: rest) = Raise err.
Proof.
  intros Hgood Hbad. induction Hgood as [|x good Hx _ IH]; cbn [app for_each].
  - by rewrite Hbad.
  - destruct (f x) as [y|]; [|done]. cbn. by rewrite IH.
Qed.

(** X8: [merge_pdfs] and [images_to_pdf] read their inputs in order and
    fail with the error of the first input that cannot be read, whatever
    follows it: [FileNotFoundError] when that path holds no file, and
    [PdfReadError] (for [merge_pdfs]) or [UnidentifiedImageError] (for
    [images_to_pdf]) when it holds a file of another kind. The inputs
    before it are stored PDFs, respectively stored images that pass the
    loop (RGB images, and images of other modes whose pixel data decodes);
    [images_to_pdf] has written nothing at that point. *)
Theorem first_unreadable_input_decides (pil : Pillow) (fs : gmap string file)
    (upload_folder : string) (good : list string) (bad : string) (rest : list string)
    (output_filename : string) :
  (Forall (fun path => is_pdf fs path = true) good →
   is_pdf fs bad = false →
   merge_pdfs fs upload_folder (good ++ bad :: rest) output_filename
   = Raise (if bool_decide (is_Some (fs !! bad)) then PdfReadError
            else FileNotFoundError)) ∧
  (Forall (fun path => passes_loop fs path = true) good →
   is_image fs bad = false →
   images_to_pdf pil fs upload_folder (good ++ bad :: rest) output_filename
   = (fs, Raise (if bool_decide (is_Some (fs !! bad)) then UnidentifiedImageError
                 else FileNotFoundError))).
Proof.
  split; intros Hgood Hbad.
  - rewrite merge_pdfs_run by (by destruct good).
    rewrite (for_each_prefix_ok _ good bad rest
               (if bool_decide (is_Some (fs !! bad)) then PdfReadError
                else FileNotFoundError)); [done | |].
    + eapply Forall_impl; [exact Hgood|]. intros path. unfold is_pdf, PdfReader.
      destruct (fs !! path) as [[]|]; done.
    + unfold is_pdf in Hbad. unfold PdfReader.
      destruct (fs !! bad) as [[]|]; done.
  - apply images_to_pdf_loop_raises, for_each_prefix_ok.
    + eapply Forall_impl; [exact Hgood|]. intros path. unfold passes_loop.
      destruct (fs !! path) as [[doc|d|raw]|] eqn:Hpath; try done.
      intros Hd. by rewrite (open_and_convert fs path d Hpath), orb_comm, Hd.
    + unfold is_image in Hbad. unfold Image_open.
      destruct (fs !! bad) as [[]|]; done.
Qed.

Lemma first_unreadable_input_decides_witness :
  merge_pdfs sample_fs "/up" (["/up/a.pdf"] ++ "/up/gone.pdf" :: ["/up/notes.png"]) "m.pdf"
  = Raise FileNotFoundError ∧
  images_to_pdf sample_pillow sample_fs "/up"
                (["/up/rgb.jpg"] ++ "/up/a.pdf" :: ["/up/gone.png"]) "i.pdf"
  = (sample_fs, Raise UnidentifiedImageError).
Proof.
  split.
  - refine (proj1 (first_unreadable_input_decides sample_pillow sample_fs "/up"
                     ["/up/a.pdf"] "/up/gone.pdf" ["/up/notes.png"] "m.pdf") _ _).
    + repeat constructor.
    + vm_compute; reflexivity.
  - refine (proj2 (first_unreadable_input_decides sample_pillow sample_fs "/up"
                     ["/up/rgb.jpg"] "/up/a.pdf" ["/up/gone.png"] "i.pdf") _ _).
    + repeat constructor.
    + vm_compute; reflexivity.
Defined.

(** X9: for every stored PDF with at least one page, [split_pdf] without
    page parameters writes a document with exactly the pages of the source,
    in order. *)
Theorem split_pdf_without_range_copies_pages (fs : gmap string file)
    (upload_folder pdf_path : string) (doc : Document) (output_filename : string) :
  fs !! pdf_path = Some (PdfFile doc) →
  pages doc ≠ [] →
  ∃ fs' split_path copy,
    split_pdf fs upload_folder pdf_path None None output_filename = Ok (fs', split_path) ∧
    fs' !! split_path = Some (PdfFile copy) ∧
    pages copy = pages doc.
Proof.
  intros Hdoc Hne. eexists _, _, _.
  split; [by apply split_pdf_no_range_identity|].
  split; [apply lookup_insert_eq | done].
Qed.

Lemma split_pdf_without_range_copies_pages_witness :
  ∃ fs' split_path copy,
    split_pdf sample_fs "/up" "/up/a.pdf" None None "copy.pdf" = Ok (fs', split_path) ∧
    fs' !! split_path = Some (PdfFile copy) ∧
    pages copy = pages three_pages.
Proof.
  apply (split_pdf_without_range_copies_pages sample_fs "/up" "/up/a.pdf" three_pages
           "copy.pdf").
  - vm_compute; reflexivity.
  - discriminate.
Defined.

(** ** More on [allowed_file] *)

Lemma lower_ascii_idemp (a : ascii) : lower_ascii (lower_ascii a) = lower_ascii a.
Proof. destruct a as [[] [] [] [] [] [] [] []]; reflexivity. Qed.

Lemma lower_ascii_dot (a : ascii) : Ascii.eqb (lower_ascii a) "." = Ascii.eqb a ".".
Proof. destruct a as [[] [] [] [] [] [] [] []]; reflexivity. Qed.

Lemma lower_idemp (s : string) : lower (lower s) = lower s.
Proof. induction s as [|a s IH]; [done|]. cbn. by rewrite lower_ascii_idemp, IH. Qed.

Lemma lower_app (s1 s2 : string) : lower (s1 +:+ s2) = lower s1 +:+ lower s2.
Proof. induction s1 as [|a s1 IH]; [done|]. simpl. by rewrite IH. Qed.

Lemma str_contains_lower (s : string) : str_contains "." (lower s) = str_contains "." s.
Proof. induction s as [|a s IH]; [done|]. cbn. by rewrite lower_ascii_dot, IH. Qed.

(** X10: [allowed_file] gives the same answer for a name and for the name
    in lower case, for every kind: the check does not depend on the case of
    any letter of the name. *)
Theorem allowed_file_ignores_case (filename file_type : string) :
  allowed_file (lower filename) file_type = allowed_file filename file_type.
Proof.
  destruct (str_contains "." filename) eqn:Hdot.
  - destruct (rsplit_last_Some "." filename Hdot) as (head & ext & -> & Hext).
    rewrite lower_app. change (lower (String "." ext)) with (String "." (lower ext)).
    rewrite !allowed_file_ext by (done || by rewrite str_contains_lower).
    by rewrite lower_idemp.
  - unfold allowed_file. by rewrite str_contains_lower, Hdot.
Qed.

(** X11: [allowed_file] never raises. For a kind other than [image] and
    [pdf] it accepts exactly the names accepted for [image] or for [pdf],
    and no name is accepted for both of these. *)
Theorem allowed_file_other_kinds (filename file_type : string) :
  file_type ≠ "image" →
  file_type ≠ "pdf" →
  ∃ as_image as_pdf,
    allowed_file filename "image" = Ok as_image ∧
    allowed_file filename "pdf" = Ok as_pdf ∧
    allowed_file filename file_type = Ok (as_image || as_pdf) ∧
    as_image && as_pdf = false.
Proof.
  intros Himage%String.eqb_neq Hpdf%String.eqb_neq.
  destruct (str_contains "." filename) eqn:Hdot.
  - destruct (rsplit_last_Some "." filename Hdot) as (head & ext & -> & Hext).
    rewrite !allowed_file_ext by done. rewrite Himage, Hpdf.
    change ("image" =? "image")%string with true.
    change ("pdf" =? "image")%string with false.
    change ("pdf" =? "pdf")%string with true. cbv iota.
    eexists _, _. split; [done|]. split; [done|].
    unfold ALLOWED_IMAGE_EXTENSIONS, ALLOWED_PDF_EXTENSIONS. split.
    + f_equal. rewrite <- bool_decide_or. apply bool_decide_ext, elem_of_union.
    + apply andb_false_iff.
      destruct (decide (lower ext = "pdf")) as [->|Hne].
      * left. by vm_compute.
      * right. apply bool_decide_eq_false. by rewrite elem_of_singleton.
  - exists false, false. unfold allowed_file. by rewrite Hdot.
Qed.

Lemma allowed_file_other_kinds_witness :
  allowed_file "scan.JPeG" "any" = Ok true ∧ allowed_file "scan.exe" "any" = Ok false.
Proof.
  destruct (allowed_file_other_kinds "scan.JPeG" "any")
    as (b1 & b2 & Hb1 & Hb2 & Hany & _); [discriminate | discriminate |].
  destruct (allowed_file_other_kinds "scan.exe" "any")
    as (c1 & c2 & Hc1 & Hc2 & Hany' & _); [discriminate | discriminate |].
  split.
  - rewrite Hany. vm_compute in Hb1. injection Hb1 as <-. reflexivity.
  - rewrite Hany'. vm_compute in Hc1, Hc2.
    injection Hc1 as <-. injection Hc2 as <-. reflexivity.
Defined.

(** ** [save_file] *)

Lemma prefix_app (s1 s2 : string) : String.prefix s1 (s1 +:+ s2) = true.
Proof.
  induction s1 as [|a s1 IH]; [by destruct s2|]. simpl.
  destruct (ascii_dec a a); [exact IH | congruence].
Qed.

Lemma os_path_join_relative (a b : string) :
  startswith_sep b = false →
  String.prefix a (os_path_join a b) = true.
Proof.
  intros Hrel. unfold os_path_join. rewrite Hrel.
  destruct (_ || _); apply prefix_app.
Qed.

(** X12: [save_file] stores the upload under the returned path and changes
    no other path. When the timestamp does not begin with ['/'], the path
    begins with the upload folder, whatever name the client declared and
    whatever [secure_filename] returns for it; deleting the saved path again
    gives back the file system as it was, if no file was stored there
    before. *)
Theorem save_file_spec (secure_filename : string → string) (timestamp : string)
    (fs : gmap string file) (upload_folder : string) (upload : FileStorage) :
  let fs' := (save_file secure_filename timestamp fs upload_folder upload).1 in
  let filepath := (save_file secure_filename timestamp fs upload_folder upload).2 in
  fs' !! filepath = Some (upload_stream upload) ∧
  (∀ other, other ≠ filepath → fs' !! other = fs !! other) ∧
  (startswith_sep timestamp = false → String.prefix upload_folder filepath = true) ∧
  (fs !! filepath = None → delete_file fs' filepath = fs).
Proof.
  cbn [save_file fst snd]. split; [apply lookup_insert_eq|].
  split; [intros other Hother; by apply lookup_insert_ne|]. split.
  - intros Hrel. apply os_path_join_relative.
    destruct timestamp; [done | exact Hrel].
  - intros Hfresh. rewrite delete_file_delete, delete_insert_eq.
    by apply delete_id.
Qed.

Lemma save_file_spec_witness :
  String.prefix "/app/uploads"
    (save_file (fun name => name) "20250101_120000" sample_fs "/app/uploads"
               {| upload_filename := "/etc/passwd"; upload_stream := OtherFile "x" |}).2
  = true.
Proof.
  apply (save_file_spec (fun name => name) "20250101_120000" sample_fs "/app/uploads"
           {| upload_filename := "/etc/passwd"; upload_stream := OtherFile "x" |}).
  reflexivity.
Defined.

(** * Further properties of the cleanup service *)

(** ** Repeated sweeps *)

Lemma swept_later (self : FileCleanupService) (t t' : Z) (e : entry) :
  t ≤ t' → swept self t e = true → swept self t' e = true.
Proof.
  unfold swept. intros Ht. rewrite !andb_true_iff, !Z.ltb_lt. intros [[? ?] ?].
  repeat split; [done | lia | done].
Qed.

Lemma filter_kept_twice (self : FileCleanupService) (t t' : Z)
    (entries : gmap string entry) :
  t ≤ t' →
  filter (fun p => swept self t' p.2 = false)
         (filter (fun p => swept self t p.2 = false) entries)
  = filter (fun p => swept self t' p.2 = false) entries.
Proof.
  intros Ht. rewrite map_filter_filter. apply map_filter_ext.
  intros name e _. cbn [snd]. split; [tauto|]. intros Hkept. split; [done|].
  destruct (swept self t e) eqn:Hswept; [|done].
  apply (swept_later self t t') in Hswept; [congruence | done].
Qed.

(** X13: two sweeps in a row, the second not earlier than the first and
    nothing else touching the folder in between, leave the folder that one
    sweep at the later time leaves, and their two counts add up to the
    count of that one sweep. *)
Theorem two_sweeps_compose (self : FileCleanupService) (t t' : Z)
    (entries : gmap string entry) :
  t ≤ t' →
  ∃ (after1 after2 : gmap string entry) (count1 count2 : Z),
    cleanup_old_files self t (Directory entries) = (Directory after1, count1) ∧
    cleanup_old_files self t' (Directory after1) = (Directory after2, count2) ∧
    cleanup_old_files self t' (Directory entries) = (Directory after2, count1 + count2) ∧
    0 ≤ count1 ∧ 0 ≤ count2.
Proof.
  intros Ht. eexists _, _, _, _.
  split; [apply cleanup_old_files_directory|].
  split; [apply cleanup_old_files_directory|].
  split; [|lia].
  rewrite cleanup_old_files_directory, filter_kept_twice by done. f_equal.
  pose proof (size_filter_swept self t entries) as H1.
  pose proof (size_filter_swept self t'
                (filter (fun p => swept self t p.2 = false) entries)) as H2.
  pose proof (size_filter_swept self t' entries) as H3.
  rewrite filter_kept_twice in H2 by done. lia.
Qed.

Lemma two_sweeps_compose_witness :
  ∃ (after1 after2 : gmap string entry) (count1 count2 : Z),
    cleanup_old_files sample_service 2000 (Directory sample_folder)
    = (Directory after1, count1) ∧
    cleanup_old_files sample_service 5000 (Directory after1) = (Directory after2, count2) ∧
    cleanup_old_files sample_service 5000 (Directory sample_folder)
    = (Directory after2, count1 + count2) ∧
    0 ≤ count1 ∧ 0 ≤ count2.
Proof.
  apply (two_sweeps_compose sample_service 2000 5000 sample_folder). lia.
Defined.

(** X14: a sweep is idempotent: a second sweep at the same time deletes
    nothing, returns 0 and leaves the folder as the first sweep left it (a
    file whose removal failed is tried again and stays). *)
Theorem sweep_twice_same_time (self : FileCleanupService) (current_time : Z)
    (entries : gmap string entry) :
  ∃ after : gmap string entry,
    (cleanup_old_files self current_time (Directory entries)).1 = Directory after ∧
    cleanup_old_files self current_time (Directory after) = (Directory after, 0).
Proof.
  eexists. split; [by rewrite cleanup_old_files_directory|].
  rewrite cleanup_old_files_directory, filter_kept_twice by lia. f_equal.
  pose proof (size_filter_swept self current_time
                (filter (fun p => swept self current_time p.2 = false) entries)) as H.
  rewrite filter_kept_twice in H by lia. lia.
Qed.

(** ** [get_folder_stats] *)

Lemma stats_loop_spec (getsize : string → Z) (w : folder) (filenames : list string)
    (count total : Z) :
  stats_loop getsize w filenames (count, total)
  = (count + Z.of_nat (List.length (filter (fun name => os_path_isfile w name = true)
                                           filenames)),
     total + foldr (fun name acc => getsize name + acc) 0
                   (filter (fun name => os_path_isfile w name = true) filenames)).
Proof.
  revert count total. induction filenames as [|name rest IH]; intros count total.
  - cbn. f_equal; lia.
  - cbn [stats_loop]. rewrite filter_cons.
    destruct (os_path_isfile w name) eqn:Hfile.
    + rewrite decide_True by done. cbn [fst snd]. rewrite IH.
      cbn [List.length foldr]. f_equal; lia.
    + rewrite decide_False by done. apply IH.
Qed.

Lemma filter_names_files (entries : gmap string entry) (l : list (string * entry)) :
  Forall (fun p : string * entry => entries !! p.1 = Some p.2) l →
  filter (fun name => os_path_isfile (Directory entries) name = true) l.*1
  = (filter (fun p : string * entry => is_file p.2 = true) l).*1.
Proof.
  induction 1 as [|[name e] l Hp _ IH]; [done|].
  cbn [fst snd] in Hp.
  assert (os_path_isfile (Directory entries) name = is_file e) as Hisfile.
  { unfold os_path_isfile. cbn [folder_entries]. by rewrite Hp. }
  cbn [fmap list_fmap fst]. rewrite !filter_cons. cbn [fst snd].
  destruct (is_file e) eqn:He.
  - rewrite decide_True by (by rewrite Hisfile). rewrite decide_True by done.
    cbn [fmap list_fmap fst]. f_equal. exact IH.
  - rewrite decide_False by (by rewrite Hisfile). rewrite decide_False by done.
    exact IH.
Qed.

Lemma filter_listing_files (entries : gmap string entry) :
  filter (fun name => os_path_isfile (Directory entries) name = true)
         (map_to_list entries).*1
  = (filter (fun p : string * entry => is_file p.2 = true) (map_to_list entries)).*1.
Proof.
  apply filter_names_files, Forall_forall. intros [name e] Hin.
  by apply elem_of_map_to_list.
Qed.

Lemma length_filter_listing (entries : gmap string entry) (P : string * entry → Prop)
    `{!∀ p, Decision (P p)} :
  List.length (filter P (map_to_list entries)) = size (filter P entries).
Proof.
  rewrite <- length_map_to_list. apply Permutation_length, NoDup_Permutation.
  - apply NoDup_filter, NoDup_map_to_list.
  - apply NoDup_map_to_list.
  - intros [name e]. rewrite list_elem_of_filter, !elem_of_map_to_list.
    rewrite map_lookup_filter_Some. tauto.
Qed.

Lemma get_folder_stats_directory (getsize : string → Z) (self : FileCleanupService)
    (entries : gmap string entry) :
  ∃ stats,
    get_folder_stats getsize self (Directory entries) = Ok stats ∧
    stats_exists stats = true ∧
    stats_folder_path stats = Some (folder_path self) ∧
    stats_file_count stats
    = Z.of_nat (size (filter (fun p : string * entry => is_file p.2 = true) entries)) ∧
    stats_total_size stats
    = foldr (fun name acc => getsize name + acc) 0
            (filter (fun p : string * entry => is_file p.2 = true)
                    (map_to_list entries)).*1 ∧
    0 ≤ stats_file_count stats ≤ Z.of_nat (size entries).
Proof.
  unfold get_folder_stats. cbn [os_path_exists negb os_listdir mbind result_bind].
  rewrite stats_loop_spec, filter_listing_files.
  eexists. split; [done|]. cbn [stats_exists stats_folder_path stats_file_count
                                  stats_total_size].
  rewrite length_fmap, length_filter_listing.
  split; [done|]. split; [done|]. split; [lia|]. split; [lia|].
  pose proof (map_filter_subseteq (fun p : string * entry => is_file p.2 = true) entries)
    as Hsub.
  apply map_subseteq_size in Hsub. lia.
Qed.

(** X15: [get_folder_stats] on a missing folder reports that it does not
    exist, with no files and size 0, and raises nothing; on a path that
    exists and is not a directory it lets the [NotADirectoryError] of
    [os.listdir] escape (the sweep swallows it and returns 0); on a
    directory it reports that the folder exists, counts exactly the entries
    that are regular files and adds up the sizes of exactly those entries,
    so subdirectories are neither counted nor measured. *)
Theorem get_folder_stats_spec (getsize : string → Z) (self : FileCleanupService)
    (current_time : Z) :
  get_folder_stats getsize self NoFolder
  = Ok {| stats_exists := false; stats_file_count := 0; stats_total_size := 0;
          stats_folder_path := None |} ∧
  get_folder_stats getsize self NotDirectory = Raise NotADirectoryError ∧
  cleanup_old_files self current_time NotDirectory = (NotDirectory, 0) ∧
  ∀ entries : gmap string entry,
    ∃ stats,
      get_folder_stats getsize self (Directory entries) = Ok stats ∧
      stats_exists stats = true ∧
      stats_folder_path stats = Some (folder_path self) ∧
      stats_file_count stats
      = Z.of_nat (size (filter (fun p : string * entry => is_file p.2 = true) entries)) ∧
      stats_total_size stats
      = foldr (fun name acc => getsize name + acc) 0
              (filter (fun p : string * entry => is_file p.2 = true)
                      (map_to_list entries)).*1 ∧
      0 ≤ stats_file_count stats ≤ Z.of_nat (size entries).
Proof.
  split; [done|]. split; [done|]. split; [done|].
  intros entries. apply get_folder_stats_directory.
Qed.

(** X16: after a sweep the number of regular files that [get_folder_stats]
    counts has dropped by exactly the count the sweep returned. *)
Theorem file_count_after_sweep (getsize : string → Z) (self : FileCleanupService)
    (current_time : Z) (entries : gmap string entry) :
  ∃ (after : gmap string entry) (deleted : Z) (before_stats after_stats : FolderStats),
    cleanup_old_files self current_time (Directory entries) = (Directory after, deleted) ∧
    get_folder_stats getsize self (Directory entries) = Ok before_stats ∧
    get_folder_stats getsize self (Directory after) = Ok after_stats ∧
    stats_file_count after_stats = stats_file_count before_stats - deleted.
Proof.
  destruct (get_folder_stats_directory getsize self entries)
    as (before_stats & Hbefore & _ & _ & Hcount & _).
  destruct (get_folder_stats_directory getsize self
              (filter (fun p => swept self current_time p.2 = false) entries))
    as (after_stats & Hafter & _ & _ & Hcount' & _).
  eexists _, _, before_stats, after_stats.
  split; [apply cleanup_old_files_directory|]. split; [done|]. split; [done|].
  rewrite Hcount, Hcount'.
  pose proof (size_filter_swept self current_time
                (filter (fun p : string * entry => is_file p.2 = true) entries)) as Hsplit.
  assert (filter (fun p => swept self current_time p.2 = true)
                 (filter (fun p : string * entry => is_file p.2 = true) entries)
          = filter (fun p => swept self current_time p.2 = true) entries) as Hswept.
  { rewrite map_filter_filter. apply map_filter_ext. intros name e _. cbn [snd].
    split; [tauto|]. intros Hs. split; [done|].
    unfold swept in Hs. by destruct (is_file e). }
  assert (filter (fun p => swept self current_time p.2 = false)
                 (filter (fun p : string * entry => is_file p.2 = true) entries)
          = filter (fun p : string * entry => is_file p.2 = true)
                   (filter (fun p => swept self current_time p.2 = false) entries))
    as Hkept.
  { rewrite !map_filter_filter. apply map_filter_ext. intros name e _. tauto. }
  rewrite Hswept, Hkept in Hsplit. lia.
Qed.

(** * The request handlers *)

Lemma allowed_file_total (filename file_type : string) :
  ∃ allowed, allowed_file filename file_type = Ok allowed.
Proof.
  destruct (str_contains "." filename) eqn:Hdot.
  - destruct (rsplit_last_Some "." filename Hdot) as (head & ext & -> & Hext).
    rewrite allowed_file_ext by done. by eexists.
  - exists false. unfold allowed_file. by rewrite Hdot.
Qed.

(** ** The split handler *)

Lemma upload_split_pdf_ok (env : Env) (fs : gmap string file) (req : Request)
    (upload : FileStorage) (others : list FileStorage) (doc : Document) :
  req_files req !! "file" = Some (upload, others) →
  upload_filename upload ≠ "" →
  allowed_file (upload_filename upload) "pdf" = Ok true →
  upload_stream upload = PdfFile doc →
  pages doc ≠ [] →
  let output_filename := "split_" +:+ now env 1 +:+ ".pdf" in
  let output := os_path_join (UPLOAD_FOLDER env) output_filename in
  let input := saved_path env 0 upload in
  let extracted :=
    written (page_slice (pages doc)
               (split_bounds (page_count doc) (req_start_page req) (req_end_page req)).1
               (split_bounds (page_count doc) (req_start_page req) (req_end_page req)).2) in
  upload_split_pdf env fs req
  = (delete input (<[output := PdfFile extracted]> (<[input := PdfFile doc]> fs)),
     (JSuccess "PDF dividido exitosamente" output_filename
               ("/convert/download/" +:+ output_filename), 200)).
Proof.
  intros Hfile Hname Hallowed Hstream Hpages output_filename output input extracted.
  assert (1 ≤ Z.of_nat (List.length (pages doc))) as Htotal.
  { destruct (pages doc); [done | cbn [List.length]; lia]. }
  unfold upload_split_pdf. rewrite Hfile.
  apply String.eqb_neq in Hname. rewrite Hname, Hallowed.
  cbn [save_file]. fold (saved_path env 0 upload). fold input.
  rewrite (split_pdf_ok _ _ _ doc); [| by rewrite Hstream, lookup_insert_eq | done].
  fold output_filename output. rewrite delete_file_delete. by rewrite Hstream.
Qed.

(** X17: a split request whose upload has an allowed name and is a PDF with
    at least one page is answered with status 200 and the output name;
    afterwards the storage holds the extracted pages under that name, no
    longer holds the saved upload, and is unchanged at every other path
    (the upload and the output being saved under different paths). *)
Theorem upload_split_pdf_success (env : Env) (fs : gmap string file) (req : Request)
    (upload : FileStorage) (others : list FileStorage) (doc : Document) :
  req_files req !! "file" = Some (upload, others) →
  upload_filename upload ≠ "" →
  allowed_file (upload_filename upload) "pdf" = Ok true →
  upload_stream upload = PdfFile doc →
  pages doc ≠ [] →
  let output_filename := "split_" +:+ now env 1 +:+ ".pdf" in
  let output := os_path_join (UPLOAD_FOLDER env) output_filename in
  let input := saved_path env 0 upload in
  input ≠ output →
  ∃ fs' extracted,
    upload_split_pdf env fs req
    = (fs', (JSuccess "PDF dividido exitosamente" output_filename
                      ("/convert/download/" +:+ output_filename), 200)) ∧
    fs' !! output = Some (PdfFile extracted) ∧
    pages extracted
    = page_slice (pages doc)
        (split_bounds (page_count doc) (req_start_page req) (req_end_page req)).1
        (split_bounds (page_count doc) (req_start_page req) (req_end_page req)).2 ∧
    fs' !! input = None ∧
    (∀ other, other ≠ input → other ≠ output → fs' !! other = fs !! other).
Proof.
  intros Hfile Hname Hallowed Hstream Hpages output_filename output input Hdiff.
  eexists _, _.
  split; [by apply (upload_split_pdf_ok env fs req upload others doc)|].
  split; [by rewrite lookup_delete_ne, lookup_insert_eq by done|].
  split; [done|]. split; [apply lookup_delete_eq|].
  intros other Hin Hout. by rewrite lookup_delete_ne, !lookup_insert_ne by done.
Qed.

Lemma upload_split_pdf_success_witness :
  ∃ fs' extracted,
    upload_split_pdf sample_env sample_fs split_request
    = (fs', (JSuccess "PDF dividido exitosamente" "split_20250101_120001.pdf"
                      "/convert/download/split_20250101_120001.pdf", 200)) ∧
    fs' !! "/up/split_20250101_120001.pdf" = Some (PdfFile extracted) ∧
    pages extracted = [PageBytes "two"; PageBytes "three"] ∧
    fs' !! "/up/20250101_120000_a.pdf" = None.
Proof.
  destruct (upload_split_pdf_success sample_env sample_fs split_request
              (upload_of "a.pdf" (PdfFile three_pages)) [] three_pages)
    as (fs' & extracted & Hrun & Hout & Hpages & Hin & _).
  - vm_compute; reflexivity.
  - discriminate.
  - vm_compute; reflexivity.
  - reflexivity.
  - discriminate.
  - vm_compute. intros Heq; discriminate Heq.
  - exists fs', extracted. split; [exact Hrun|]. split; [exact Hout|].
    split; [exact Hpages | exact Hin].
Defined.

Lemma split_pdf_stored (fs : gmap string file) (upload_folder pdf_path : string)
    (f : file) (s e : option Z) (output_filename : string) :
  fs !! pdf_path = Some f →
  split_pdf fs upload_folder pdf_path s e output_filename
  = match f with
    | PdfFile doc =>
        match pages doc with
        | [] => Raise IndexError
        | _ =>
            let total := Z.of_nat (List.length (pages doc)) in
            Ok (<[os_path_join upload_folder output_filename :=
                    PdfFile (written (page_slice (pages doc)
                                        (split_bounds total s e).1
                                        (split_bounds total s e).2))]> fs,
                os_path_join upload_folder output_filename)
        end
    | _ => Raise PdfReadError
    end.
Proof.
  intros Hfile.
  destruct f as [doc|d|raw]; try (unfold split_pdf, PdfReader; by rewrite Hfile).
  destruct (pages doc) as [|page rest] eqn:Hpages.
  - by apply (split_pdf_empty _ _ _ doc).
  - rewrite (split_pdf_ok _ _ _ doc); [by rewrite Hpages | done |].
    rewrite Hpages. cbn [List.length]. lia.
Qed.

(** X18: the split handler answers an accepted request with 200, 400 or
    500. A 400 answer leaves the storage untouched. A 200 answer is given
    only for an upload that is a PDF with at least one page. An upload with
    an allowed name that is no PDF, or a PDF without pages, is answered 500
    with the exception of [split_pdf] ([PdfReadError], respectively
    [IndexError]), and the saved upload is left in the storage. *)
Theorem upload_split_pdf_statuses (env : Env) (fs : gmap string file) (req : Request) :
  let fs' := (upload_split_pdf env fs req).1 in
  let body := (upload_split_pdf env fs req).2.1 in
  let status := (upload_split_pdf env fs req).2.2 in
  (status = 200 ∨ status = 400 ∨ status = 500) ∧
  (status = 400 → fs' = fs) ∧
  (status = 200 →
     ∃ upload others doc,
       req_files req !! "file" = Some (upload, others) ∧
       upload_stream upload = PdfFile doc ∧ pages doc ≠ []) ∧
  (∀ upload others,
     req_files req !! "file" = Some (upload, others) →
     upload_filename upload ≠ "" →
     allowed_file (upload_filename upload) "pdf" = Ok true →
     (∀ doc, upload_stream upload = PdfFile doc → pages doc = []) →
     status = 500 ∧
     fs' = <[saved_path env 0 upload := upload_stream upload]> fs ∧
     body = JErrorExn "Error al dividir PDF: "
              match upload_stream upload with
              | PdfFile _ => IndexError
              | _ => PdfReadError
              end).
Proof.
  unfold upload_split_pdf.
  destruct (req_files req !! "file") as [[upload others]|] eqn:Hfile;
    [|cbn; split; [auto|]; split; [done|]; split; [intros [=] | intros ? ? [=]]].
  destruct (String.eqb_spec (upload_filename upload) "") as [Hempty|Hname].
  { cbn. split; [auto|]. split; [done|]. split; [intros [=]|].
    intros upload' others' [= <- <-] Hname. done. }
  destruct (allowed_file_total (upload_filename upload) "pdf") as [[] Hallowed];
    rewrite Hallowed.
  2: { cbn. split; [auto|]. split; [done|]. split; [intros [=]|].
       intros upload' others' [= <- <-] _ Hyes. rewrite Hallowed in Hyes. done. }
  cbn [save_file]. fold (saved_path env 0 upload).
  rewrite (split_pdf_stored _ _ _ (upload_stream upload)) by apply lookup_insert_eq.
  destruct (upload_stream upload) as [doc|d|raw] eqn:Hstream.
  - destruct (pages doc) as [|page rest] eqn:Hpages; cbn.
    + split; [auto|]. split; [intros [=]|]. split; [intros [=]|].
      intros upload' others' [= <- <-] _ _ _. rewrite Hstream. done.
    + split; [auto|]. split; [intros [=]|]. split.
      * intros _. exists upload, others, doc. rewrite Hpages. done.
      * intros upload' others' [= <- <-] _ _ Hnone.
        rewrite Hstream in Hnone. specialize (Hnone doc eq_refl). congruence.
  - cbn. split; [auto|]. split; [intros [=]|]. split; [intros [=]|].
    intros upload' others' [= <- <-] _ _ _. rewrite Hstream. done.
  - cbn. split; [auto|]. split; [intros [=]|]. split; [intros [=]|].
    intros upload' others' [= <- <-] _ _ _. rewrite Hstream. done.
Qed.

Lemma upload_split_pdf_statuses_witness :
  (upload_split_pdf sample_env sample_fs broken_request).2.2 = 500 ∧
  (upload_split_pdf sample_env sample_fs broken_request).1
  = <["/up/20250101_120000_notes.pdf" := OtherFile "plain text"]> sample_fs ∧
  (upload_split_pdf sample_env sample_fs broken_request).2.1
  = JErrorExn "Error al dividir PDF: " PdfReadError.
Proof.
  destruct (upload_split_pdf_statuses sample_env sample_fs broken_request)
    as (_ & _ & _ & Hfail).
  apply (Hfail (upload_of "notes.pdf" (OtherFile "plain text")) []).
  - vm_compute; reflexivity.
  - discriminate.
  - vm_compute; reflexivity.
  - intros doc Heq. discriminate Heq.
Defined.

(** ** The saving loop of the multi-file handlers *)

Lemma save_loop_allowed (env : Env) (file_type : string) (reject : string → string)
    (files : list FileStorage) :
  Forall (fun upload => allowed_file (upload_filename upload) file_type = Ok true) files →
  ∀ (tick : nat) (fs : gmap string file) (paths : list string),
    save_loop env file_type reject files tick fs paths
    = (store_uploads env tick files fs,
       Saved (paths ++ saved_paths env tick files) (tick + List.length files)).
Proof.
  induction 1 as [|upload rest Hallowed _ IH]; intros tick fs paths.
  - cbn. by rewrite app_nil_r, Nat.add_0_r.
  - cbn [save_loop]. rewrite Hallowed. cbn [save_file].
    fold (saved_path env tick upload). rewrite IH.
    cbn [store_uploads saved_paths List.length].
    rewrite <- app_assoc. do 2 f_equal. lia.
Qed.

Lemma save_loop_rejected (env : Env) (file_type : string) (reject : string → string)
    (saved : list FileStorage) (bad : FileStorage) (rest : list FileStorage) :
  Forall (fun upload => allowed_file (upload_filename upload) file_type = Ok true) saved →
  allowed_file (upload_filename bad) file_type = Ok false →
  ∀ (tick : nat) (fs : gmap string file) (paths : list string),
    save_loop env file_type reject (saved ++ bad :: rest) tick fs paths
    = (store_uploads env tick saved fs,
       Returned (JError (reject (upload_filename bad)), 400)).
Proof.
  intros Hsaved Hbad.
  induction Hsaved as [|upload saved Hallowed _ IH]; intros tick fs paths.
  - cbn [app save_loop store_uploads]. by rewrite Hbad.
  - cbn [app save_loop]. rewrite Hallowed. cbn [save_file].
    fold (saved_path env tick upload). by rewrite IH.
Qed.

Lemma store_uploads_other (env : Env) (files : list FileStorage) :
  ∀ (tick : nat) (fs : gmap string file) (path : string),
    path ∉ saved_paths env tick files →
    store_uploads env tick files fs !! path = fs !! path.
Proof.
  induction files as [|upload rest IH]; intros tick fs path Hfresh; [done|].
  cbn [saved_paths] in Hfresh. apply not_elem_of_cons in Hfresh as [Hne Hfresh].
  cbn [store_uploads]. rewrite IH by done. by rewrite lookup_insert_ne.
Qed.

Lemma store_uploads_keeps (env : Env) (files : list FileStorage) :
  ∀ (tick : nat) (fs : gmap string file) (path : string),
    is_Some (fs !! path) → is_Some (store_uploads env tick files fs !! path).
Proof.
  induction files as [|upload rest IH]; intros tick fs path Hthere; [done|].
  cbn [store_uploads]. apply IH.
  destruct (decide (saved_path env tick upload = path)) as [<-|Hne].
  - rewrite lookup_insert_eq. eauto.
  - by rewrite lookup_insert_ne.
Qed.

Lemma store_uploads_saved (env : Env) (files : list FileStorage) :
  ∀ (tick k : nat) (fs : gmap string file) (upload : FileStorage),
    files !! k = Some upload →
    is_Some (store_uploads env tick files fs !! saved_path env (tick + k) upload).
Proof.
  induction files as [|first rest IH]; intros tick k fs upload Hk; [done|].
  cbn [store_uploads]. destruct k as [|k].
  - injection Hk as ->. rewrite Nat.add_0_r.
    apply store_uploads_keeps. rewrite lookup_insert_eq. eauto.
  - replace (tick + S k)%nat with (S tick + k)%nat by lia. by apply IH.
Qed.

Lemma store_uploads_distinct (env : Env) (files : list FileStorage) :
  ∀ (tick : nat) (fs : gmap string file),
    NoDup (saved_paths env tick files) →
    Forall2 (fun path upload => store_uploads env tick files fs !! path
                                = Some (upload_stream upload))
            (saved_paths env tick files) files.
Proof.
  induction files as [|upload rest IH]; intros tick fs Hnodup; [constructor|].
  cbn [saved_paths] in *. apply NoDup_cons in Hnodup as [Hfresh Hnodup].
  constructor.
  - cbn [store_uploads]. rewrite store_uploads_other by done. apply lookup_insert_eq.
  - cbn [store_uploads]. by apply IH.
Qed.

Lemma delete_files_lookup (paths : list string) :
  ∀ (fs : gmap string file) (path : string),
    delete_files fs paths !! path = if decide (path ∈ paths) then None else fs !! path.
Proof.
  unfold delete_files. induction paths as [|p paths IH]; intros fs path.
  - cbn. rewrite decide_False; [done | apply not_elem_of_nil].
  - cbn [foldl]. rewrite IH, delete_file_delete.
    destruct (decide (path ∈ paths)) as [Hin|Hnotin].
    + rewrite decide_True; [done | by right].
    + destruct (decide (path = p)) as [->|Hne].
      * rewrite decide_True by left. apply lookup_delete_eq.
      * rewrite decide_False; [by rewrite lookup_delete_ne|].
        by intros [?|?]%elem_of_cons.
Qed.

Lemma upload_merge_pdfs_rejected (env : Env) (fs : gmap string file) (req : Request)
    (first : FileStorage) (others saved rest : list FileStorage) (bad : FileStorage) :
  req_files req !! "files[]" = Some (first, others) →
  first :: others = (saved ++ bad :: rest)%list →
  upload_filename first ≠ "" →
  Forall (fun upload => allowed_file (upload_filename upload) "pdf" = Ok true) saved →
  allowed_file (upload_filename bad) "pdf" = Ok false →
  upload_merge_pdfs env fs req
  = (store_uploads env 0 saved fs,
     (JError ("Solo se permiten archivos PDF: " +:+ upload_filename bad), 400)).
Proof.
  intros Hfiles Hsplit Hname%String.eqb_neq Hsaved Hbad.
  unfold upload_merge_pdfs, getlist. rewrite Hfiles.
  rewrite bool_decide_eq_true_2 by eauto. cbn [negb].
  by rewrite Hname, Hsplit, save_loop_rejected.
Qed.

Lemma upload_images_to_pdf_rejected (env : Env) (fs : gmap string file) (req : Request)
    (first : FileStorage) (others saved rest : list FileStorage) (bad : FileStorage) :
  req_files req !! "files[]" = Some (first, others) →
  first :: others = (saved ++ bad :: rest)%list →
  upload_filename first ≠ "" →
  Forall (fun upload => allowed_file (upload_filename upload) "image" = Ok true) saved →
  allowed_file (upload_filename bad) "image" = Ok false →
  upload_images_to_pdf env fs req
  = (store_uploads env 0 saved fs,
     (JError ("Formato no permitido: " +:+ upload_filename bad), 400)).
Proof.
  intros Hfiles Hsplit Hname%String.eqb_neq Hsaved Hbad.
  unfold upload_images_to_pdf, getlist. rewrite Hfiles.
  rewrite bool_decide_eq_true_2 by eauto. cbn [negb].
  by rewrite Hname, Hsplit, save_loop_rejected.
Qed.

(** X19: in the two handlers for several files, an upload with a disallowed
    name ends the request with status 400 and a message naming it, but the
    uploads before it have already been saved and stay in the storage;
    nothing that was stored before is removed. *)
Theorem rejected_upload_leaves_earlier_ones (env : Env) (fs : gmap string file)
    (req : Request) (first : FileStorage) (others saved rest : list FileStorage)
    (bad : FileStorage) :
  req_files req !! "files[]" = Some (first, others) →
  first :: others = (saved ++ bad :: rest)%list →
  upload_filename first ≠ "" →
  (Forall (fun upload => allowed_file (upload_filename upload) "pdf" = Ok true) saved →
   allowed_file (upload_filename bad) "pdf" = Ok false →
   rejected_after_saving env fs saved bad "Solo se permiten archivos PDF: "
     (upload_merge_pdfs env fs req)) ∧
  (Forall (fun upload => allowed_file (upload_filename upload) "image" = Ok true) saved →
   allowed_file (upload_filename bad) "image" = Ok false →
   rejected_after_saving env fs saved bad "Formato no permitido: "
     (upload_images_to_pdf env fs req)).
Proof.
  intros Hfiles Hsplit Hname.
  assert (∀ message outcome,
            outcome = (store_uploads env 0 saved fs,
                       (JError (message +:+ upload_filename bad), 400)) →
            rejected_after_saving env fs saved bad message outcome) as Hleft.
  { intros message outcome ->. split; [done|]. cbn [fst]. split.
    - intros k upload Hk. by apply (store_uploads_saved env saved 0 k).
    - intros path. apply store_uploads_keeps. }
  split; intros Hsaved Hbad; apply Hleft.
  - by apply (upload_merge_pdfs_rejected env fs req first others saved rest).
  - by apply (upload_images_to_pdf_rejected env fs req first others saved rest).
Qed.

Lemma rejected_upload_leaves_earlier_ones_witness :
  (upload_merge_pdfs sample_env sample_fs mixed_request).2
  = (JError "Solo se permiten archivos PDF: b.txt", 400) ∧
  is_Some ((upload_merge_pdfs sample_env sample_fs mixed_request).1
             !! "/up/20250101_120000_a.pdf").
Proof.
  destruct (rejected_upload_leaves_earlier_ones sample_env sample_fs mixed_request
              (upload_of "a.pdf" (PdfFile three_pages))
              [upload_of "b.txt" (OtherFile "plain text");
               upload_of "c.pdf" (PdfFile three_pages)]
              [upload_of "a.pdf" (PdfFile three_pages)]
              [upload_of "c.pdf" (PdfFile three_pages)]
              (upload_of "b.txt" (OtherFile "plain text")))
    as (Hmerge & _).
  - vm_compute; reflexivity.
  - reflexivity.
  - discriminate.
  - destruct Hmerge as (Hrun & Hsaved & _).
    + repeat constructor.
    + vm_compute; reflexivity.
    + split; [rewrite Hrun; reflexivity|].
      apply (Hsaved 0%nat (upload_of "a.pdf" (PdfFile three_pages))). reflexivity.
Defined.

(** ** The merge handler and the image handler *)

Lemma stored_uploads_as (A : Type) (content : A → file) (m : gmap string file)
    (paths : list string) (files : list FileStorage) (xs : list A) :
  Forall2 (fun path upload => m !! path = Some (upload_stream upload)) paths files →
  Forall2 (fun upload x => upload_stream upload = content x) files xs →
  Forall2 (fun path x => m !! path = Some (content x)) paths xs.
Proof.
  intros Hstored. revert xs.
  induction Hstored as [|path upload paths files Hpath _ IH]; intros xs Hxs.
  - inversion Hxs. constructor.
  - inversion Hxs as [|? x ? xs' Hx Hrest]; subst.
    constructor; [by rewrite Hpath, Hx | by apply IH].
Qed.

Lemma after_conversion (fs : gmap string file) (env : Env) (files : list FileStorage)
    (output : string) (result : file) :
  output ∉ saved_paths env 0 files →
  let fs' := delete_files (<[output := result]> (store_uploads env 0 files fs))
                          (saved_paths env 0 files) in
  fs' !! output = Some result ∧
  (∀ path, path ∈ saved_paths env 0 files → fs' !! path = None) ∧
  (∀ other, other ∉ saved_paths env 0 files → other ≠ output → fs' !! other = fs !! other).
Proof.
  intros Hfresh fs'. subst fs'. split; [|split].
  - rewrite delete_files_lookup, decide_False by done. apply lookup_insert_eq.
  - intros path Hin. by rewrite delete_files_lookup, decide_True.
  - intros other Hother Hne. rewrite delete_files_lookup, decide_False by done.
    rewrite lookup_insert_ne by done. by apply store_uploads_other.
Qed.

(** X20: a merge request whose uploads all have allowed names and are PDFs
    is answered with status 200 and the output name; afterwards the storage
    holds, under that name, the pages of the uploads concatenated in upload
    order, holds none of the saved uploads, and is unchanged elsewhere. The
    saved paths must be pairwise different and different from the output
    path. *)
Theorem upload_merge_pdfs_success (env : Env) (fs : gmap string file) (req : Request)
    (first : FileStorage) (others : list FileStorage) (docs : list Document) :
  req_files req !! "files[]" = Some (first, others) →
  upload_filename first ≠ "" →
  Forall (fun upload => allowed_file (upload_filename upload) "pdf" = Ok true)
         (first :: others) →
  Forall2 (fun upload doc => upload_stream upload = PdfFile doc) (first :: others) docs →
  let files := first :: others in
  let output_filename := "merged_" +:+ now env (List.length files) +:+ ".pdf" in
  let output := os_path_join (UPLOAD_FOLDER env) output_filename in
  NoDup (saved_paths env 0 files) →
  output ∉ saved_paths env 0 files →
  ∃ fs' merged,
    upload_merge_pdfs env fs req
    = (fs', (JSuccess "PDFs unidos exitosamente" output_filename
                      ("/convert/download/" +:+ output_filename), 200)) ∧
    fs' !! output = Some (PdfFile merged) ∧
    pages merged = List.concat (map pages docs) ∧
    (∀ path, path ∈ saved_paths env 0 files → fs' !! path = None) ∧
    (∀ other, other ∉ saved_paths env 0 files → other ≠ output →
       fs' !! other = fs !! other).
Proof.
  intros Hfiles Hname%String.eqb_neq Hallowed Hdocs files output_filename output
         Hnodup Hfresh.
  destruct (after_conversion fs env files output
              (PdfFile (written (List.concat (map pages docs)))) Hfresh)
    as (Hout & Hin & Hother).
  eexists _, _. split; [|split; [exact Hout|split; [done|split; [exact Hin|exact Hother]]]].
  unfold upload_merge_pdfs, getlist. rewrite Hfiles.
  rewrite bool_decide_eq_true_2 by eauto. cbn [negb]. rewrite Hname.
  rewrite save_loop_allowed by done. cbn [app Nat.add].
  fold files. fold output_filename.
  rewrite (merge_pdfs_ok _ _ _ docs); [done | done |].
  apply (stored_uploads_as Document PdfFile _ _ files); [|done].
  by apply store_uploads_distinct.
Qed.

Lemma upload_merge_pdfs_success_witness :
  ∃ fs' merged,
    upload_merge_pdfs sample_env sample_fs merge_request
    = (fs', (JSuccess "PDFs unidos exitosamente" "merged_20250101_120002.pdf"
                      "/convert/download/merged_20250101_120002.pdf", 200)) ∧
    fs' !! "/up/merged_20250101_120002.pdf" = Some (PdfFile merged) ∧
    pages merged = (pages three_pages ++ pages three_pages)%list.
Proof.
  destruct (upload_merge_pdfs_success sample_env sample_fs merge_request
              (upload_of "a.pdf" (PdfFile three_pages))
              [upload_of "b.pdf" (PdfFile three_pages)] [three_pages; three_pages])
    as (fs' & merged & Hrun & Hout & Hpages & _).
  - vm_compute; reflexivity.
  - discriminate.
  - repeat constructor.
  - repeat constructor.
  - vm_compute. repeat constructor.
    + intros Hin. apply list_elem_of_singleton in Hin. discriminate Hin.
    + apply not_elem_of_nil.
  - vm_compute. intros Hin. apply elem_of_cons in Hin as [Heq|Hin]; [discriminate Heq|].
    apply list_elem_of_singleton in Hin. discriminate Hin.
  - exists fs', merged. split; [exact Hrun|]. split; [exact Hout | exact Hpages].
Defined.

Lemma length_saved_paths (env : Env) (tick : nat) (files : list FileStorage) :
  List.length (saved_paths env tick files) = List.length files.
Proof.
  revert tick. induction files as [|upload rest IH]; intros tick; [done|].
  cbn [saved_paths List.length]. by rewrite IH.
Qed.

Lemma pages_of_frames (several : bool) (d : ImageData) :
  pages_of 100 several (rgb_version d)
  = map (PageOfImage 100 (rgb_version d))
        (seq 0 (if several && String.eqb (im_mode d) "RGB" then S (im_more d)
                else 1%nat)).
Proof.
  destruct (pages_of_rgb_version several d) as (HRGBA & HLA & HRGB & Hother).
  cbn zeta in HRGBA, HLA, HRGB, Hother.
  destruct (String.eqb_spec (im_mode d) "RGB") as [Hmode | Hmode].
  - rewrite (HRGB Hmode), andb_true_r. unfold rgb_version. by rewrite Hmode.
  - rewrite andb_false_r. apply pages_of_single. right. done.
Qed.

(** X21: an image request whose uploads all have allowed names and are
    images that decode is answered with status 200 and the output name;
    afterwards the storage holds, under that name, a PDF whose pages follow
    the upload order: one page for each upload, except that with two or
    more uploads an RGB image gives one page for each of its frames. The
    storage holds none of the saved uploads and is unchanged elsewhere
    (saved paths pairwise different and different from the output path). *)
Theorem upload_images_to_pdf_success (env : Env) (fs : gmap string file) (req : Request)
    (first : FileStorage) (others : list FileStorage) (ds : list ImageData) :
  req_files req !! "files[]" = Some (first, others) →
  upload_filename first ≠ "" →
  Forall (fun upload => allowed_file (upload_filename upload) "image" = Ok true)
         (first :: others) →
  Forall2 (fun upload d => upload_stream upload = ImageFile d) (first :: others) ds →
  Forall (fun d => im_intact d = true) ds →
  let files := first :: others in
  let output_filename := "converted_" +:+ now env (List.length files) +:+ ".pdf" in
  let output := os_path_join (UPLOAD_FOLDER env) output_filename in
  let several := negb (Z.of_nat (List.length files) =? 1) in
  NoDup (saved_paths env 0 files) →
  output ∉ saved_paths env 0 files →
  ∃ fs' converted,
    upload_images_to_pdf env fs req
    = (fs', (JSuccess "Imágenes convertidas a PDF exitosamente" output_filename
                      ("/convert/download/" +:+ output_filename), 200)) ∧
    fs' !! output = Some (PdfFile converted) ∧
    pages converted
    = List.concat
        (map (fun d => map (PageOfImage 100 (rgb_version d))
                           (seq 0 (if several && String.eqb (im_mode d) "RGB"
                                   then S (im_more d) else 1%nat)))
             ds) ∧
    (List.length files ≤ List.length (pages converted))%nat ∧
    (several = false ∨ Forall (fun d => im_mode d = "RGB" → im_more d = 0%nat) ds →
       pages converted = map (fun d => PageOfImage 100 (rgb_version d) 0%nat) ds) ∧
    (∀ path, path ∈ saved_paths env 0 files → fs' !! path = None) ∧
    (∀ other, other ∉ saved_paths env 0 files → other ≠ output →
       fs' !! other = fs !! other).
Proof.
  intros Hfiles Hname%String.eqb_neq Hallowed Hds Hintact files output_filename output
         several Hnodup Hfresh.
  destruct (after_conversion fs env files output
              (PdfFile {| pages := List.concat
                                     (map (fun d => pages_of 100 several (rgb_version d)) ds);
                          metadata := pdf_information (pillow env) output |}) Hfresh)
    as (Hout & Hin & Hother).
  eexists _, _.
  split; [|split; [exact Hout|split; [|split; [|split; [|split; [exact Hin|exact Hother]]]]]].
  - unfold upload_images_to_pdf, getlist. rewrite Hfiles.
    rewrite bool_decide_eq_true_2 by eauto. cbn [negb]. rewrite Hname.
    rewrite save_loop_allowed by done. cbn [app Nat.add].
    fold files. fold output_filename.
    assert (images_to_pdf (pillow env) (store_uploads env 0 files fs) (UPLOAD_FOLDER env)
                          (saved_paths env 0 files) output_filename
            = (<[output :=
                   PdfFile {| pages := List.concat
                                         (map (fun d => pages_of 100 several (rgb_version d))
                                              ds);
                              metadata := pdf_information (pillow env) output |}]>
                 (store_uploads env 0 files fs),
               Ok output)) as ->; [|done].
    rewrite (images_to_pdf_decodable (pillow env) _ _ _ ds); [|done| |done].
    + by rewrite length_saved_paths.
    + apply (stored_uploads_as ImageData ImageFile _ _ files); [|done].
      by apply store_uploads_distinct.
  - cbn [pages]. f_equal. apply map_ext. intros d. apply pages_of_frames.
  - cbn [pages]. unfold files. rewrite (Forall2_length _ _ _ Hds).
    apply length_concat_groups. intros d. apply pages_of_not_empty.
  - intros Hone. cbn [pages]. apply concat_singletons.
    destruct Hone as [Hno | Hone].
    + apply Forall_forall. intros d _. apply pages_of_single. by left.
    + eapply Forall_impl; [exact Hone|]. intros d Hd. apply pages_of_single. by right.
Qed.

Lemma upload_images_to_pdf_success_witness :
  ∃ fs' converted,
    upload_images_to_pdf sample_env sample_fs
      {| req_files := {[ "files[]" := (upload_of "x.PNG" (ImageFile rgba_image),
                                       [upload_of "y.jpg" (ImageFile two_frames)]) ]};
         req_start_page := None; req_end_page := None |}
    = (fs', (JSuccess "Imágenes convertidas a PDF exitosamente"
                      "converted_20250101_120002.pdf"
                      "/convert/download/converted_20250101_120002.pdf", 200)) ∧
    fs' !! "/up/converted_20250101_120002.pdf" = Some (PdfFile converted) ∧
    pages converted
    = [PageOfImage 100 (Paste (New "RGB" (4, 3) (255, 255, 255)) (Opened rgba_image)
                              (Some (LastBand (Opened rgba_image)))) 0;
       PageOfImage 100 (Opened two_frames) 0;
       PageOfImage 100 (Opened two_frames) 1].
Proof.
  destruct (upload_images_to_pdf_success sample_env sample_fs
              {| req_files := {[ "files[]" :=
                                   (upload_of "x.PNG" (ImageFile rgba_image),
                                    [upload_of "y.jpg" (ImageFile two_frames)]) ]};
                 req_start_page := None; req_end_page := None |}
              (upload_of "x.PNG" (ImageFile rgba_image))
              [upload_of "y.jpg" (ImageFile two_frames)]
              [rgba_image; two_frames])
    as (fs' & converted & Hrun & Hout & Hpages & _).
  - vm_compute; reflexivity.
  - discriminate.
  - repeat constructor.
  - repeat constructor.
  - repeat constructor.
  - vm_compute. repeat constructor.
    + intros Hin. apply list_elem_of_singleton in Hin. discriminate Hin.
    + apply not_elem_of_nil.
  - vm_compute. intros Hin. apply elem_of_cons in Hin as [Heq|Hin]; [discriminate Heq|].
    apply list_elem_of_singleton in Hin. discriminate Hin.
  - exists fs', converted. split; [exact Hrun|]. split; [exact Hout | exact Hpages].
Defined.

(** ** The information handler and the download handler *)

(** X22: for an upload with an allowed name that is a PDF, the information
    handler removes the saved upload again (the storage is as before when
    the saved path was free) and answers 200 with the page count, metadata
    and size of the PDF, or, when a metadata value of the PDF is no text
    string, 500 with the [TypeError] of [jsonify]. When the upload is no
    PDF, it answers 500 with [PdfReadError] and leaves the saved upload in
    the storage. *)
Theorem pdf_info_route_outcomes (env : Env) (fs : gmap string file) (req : Request)
    (upload : FileStorage) (others : list FileStorage) :
  req_files req !! "file" = Some (upload, others) →
  upload_filename upload ≠ "" →
  allowed_file (upload_filename upload) "pdf" = Ok true →
  let input := saved_path env 0 upload in
  (∀ doc, upload_stream upload = PdfFile doc →
     pdf_info_route env fs req
     = (delete input fs,
        if forallb (fun item : string * MetaValue =>
                      match item.2 with TextValue _ => true | OtherValue _ => false end)
                   (metadata doc)
        then (JInfo {| info_pages := page_count doc; info_metadata := metadata doc;
                       info_size_bytes := getsize_of env (PdfFile doc) |}, 200)
        else (JErrorExn "Error al obtener información: " TypeError, 500)) ∧
     (fs !! input = None → (pdf_info_route env fs req).1 = fs)) ∧
  ((∀ doc, upload_stream upload ≠ PdfFile doc) →
     pdf_info_route env fs req
     = (<[input := upload_stream upload]> fs,
        (JErrorExn "Error al obtener información: " PdfReadError, 500))).
Proof.
  intros Hfile Hname%String.eqb_neq Hallowed input.
  unfold pdf_info_route. rewrite Hfile, Hname, Hallowed.
  cbn [save_file]. fold (saved_path env 0 upload). fold input. split.
  - intros doc Hstream. rewrite Hstream.
    rewrite (get_pdf_info_pdf _ _ _ doc) by apply lookup_insert_eq.
    rewrite delete_file_delete, delete_insert_eq.
    unfold json_serialisable. cbn [info_metadata].
    destruct (forallb _ (metadata doc)).
    + split; [done|]. intros Hfresh. cbn [fst]. by apply delete_id.
    + split; [done|]. intros Hfresh. cbn [fst]. by apply delete_id.
  - intros Hnot. unfold get_pdf_info, PdfReader. rewrite lookup_insert_eq.
    destruct (upload_stream upload) as [doc|d|raw]; [by destruct (Hnot doc) | done | done].
Qed.

Lemma pdf_info_route_outcomes_witness :
  pdf_info_route sample_env sample_fs split_request
  = (delete "/up/20250101_120000_a.pdf" sample_fs,
     (JInfo {| info_pages := 3; info_metadata := [("/Producer", TextValue "PyPDF2")];
               info_size_bytes := 1024 |}, 200)) ∧
  pdf_info_route sample_env sample_fs scanned_request
  = (delete "/up/20250101_120000_scan.pdf" sample_fs,
     (JErrorExn "Error al obtener información: " TypeError, 500)) ∧
  pdf_info_route sample_env sample_fs broken_request
  = (<["/up/20250101_120000_notes.pdf" := OtherFile "plain text"]> sample_fs,
     (JErrorExn "Error al obtener información: " PdfReadError, 500)).
Proof.
  split; [|split].
  - refine (proj1 (proj1 (pdf_info_route_outcomes sample_env sample_fs split_request
                            (upload_of "a.pdf" (PdfFile three_pages)) [] _ _ _)
                     three_pages eq_refl)).
    + vm_compute; reflexivity.
    + discriminate.
    + vm_compute; reflexivity.
  - refine (proj1 (proj1 (pdf_info_route_outcomes sample_env sample_fs scanned_request
                            (upload_of "scan.pdf" (PdfFile scanned)) [] _ _ _)
                     scanned eq_refl)).
    + vm_compute; reflexivity.
    + discriminate.
    + vm_compute; reflexivity.
  - refine (proj2 (pdf_info_route_outcomes sample_env sample_fs broken_request
                     (upload_of "notes.pdf" (OtherFile "plain text")) [] _ _ _) _).
    + vm_compute; reflexivity.
    + discriminate.
    + vm_compute; reflexivity.
    + intros doc Heq. discriminate Heq.
Defined.



(** * Text checks *)

Lemma str_contains_append (c : ascii) (s1 s2 : string) :
  str_contains c (s1 +:+ s2) = str_contains c s1 || str_contains c s2.
Proof.
  induction s1 as [|a s1 IH]; [done|]. simpl. by rewrite IH, orb_assoc.
Qed.

(** What one character becomes: itself, when it is not a key of the table,
    or text without markup characters. *)
Lemma escape_one (x c : ascii) :
  is_control x = false →
  is_markup c = true →
  str_contains c (match html_escape_table !! x with
                  | Some entity => entity
                  | None => String x EmptyString
                  end) = false.
Proof.
  intros Hx Hc.
  assert (html_escape_table !! x = None ∧ is_markup x = false ∨
          ∃ entity, html_escape_table !! x = Some entity ∧
                    entity ∈ ["&amp;"; "&quot;"; "&#x27;"; "&gt;"; "&lt;"]) as Hcases.
  { destruct x as [[] [] [] [] [] [] [] []]; try discriminate Hx;
      first [ left; split; vm_compute; reflexivity
            | right; eexists; split; [vm_compute; reflexivity|];
              repeat first [ apply list_elem_of_here | apply list_elem_of_further ] ]. }
  destruct Hcases as [[-> Hplain] | (entity & -> & Hentity)].
  - cbn [str_contains]. rewrite orb_false_r. apply Ascii.eqb_neq. intros ->. congruence.
  - repeat (apply elem_of_cons in Hentity as [-> | Hentity]);
      [| | | | | by apply not_elem_of_nil in Hentity];
      destruct c as [[] [] [] [] [] [] [] []]; try discriminate Hc; reflexivity.
Qed.

Lemma remove_control_clean (text : string) (c : ascii) :
  is_markup c = true →
  str_contains c (escape_all (remove_control text)) = false.
Proof.
  intros Hc. induction text as [|x rest IH]; [done|]. cbn [remove_control].
  destruct (is_control x) eqn:Hx; [exact IH|]. cbn [escape_all].
  rewrite str_contains_append, IH, orb_false_r. by apply escape_one.
Qed.

(** X24: whatever the text of 8-bit characters and the length limit, the
    result of [sanitize_input] contains no control character (codes 0 to 31
    and 127) and none of the characters [<], [>], double quote and single
    quote. *)
Theorem sanitize_input_no_markup (text : string) (max_length : Z) (c : ascii) :
  is_markup c = true →
  str_contains c (sanitize_input text max_length) = false.
Proof.
  intros Hc. unfold sanitize_input. destruct (String.eqb text ""); [done|].
  by apply remove_control_clean.
Qed.

Lemma sanitize_input_no_markup_witness :
  str_contains "<" (sanitize_input "<script>alert('x')</script>" 1000) = false.
Proof. apply sanitize_input_no_markup. reflexivity. Defined.

Lemma length_substring_0 (k : nat) (s : string) :
  (String.length (String.substring 0 k s) ≤ k)%nat.
Proof.
  revert s. induction k as [|k IH]; intros [|a s]; cbn; try lia.
  specialize (IH s). lia.
Qed.

Lemma length_remove_control (text : string) :
  (String.length (remove_control text) ≤ String.length text)%nat.
Proof.
  induction text as [|x rest IH]; [done|]. cbn [remove_control].
  destruct (is_control x); cbn [String.length]; lia.
Qed.

Lemma length_string_app (s1 s2 : string) :
  String.length (s1 +:+ s2) = (String.length s1 + String.length s2)%nat.
Proof. induction s1 as [|a s1 IH]; [done|]. simpl. by rewrite IH. Qed.

Lemma length_escape_all (text : string) :
  (String.length (escape_all text) ≤ 6 * String.length text)%nat.
Proof.
  induction text as [|x rest IH]; [done|]. cbn [escape_all].
  rewrite length_string_app. cbn [String.length].
  assert (String.length (match html_escape_table !! x with
                         | Some entity => entity
                         | None => String x EmptyString
                         end) ≤ 6)%nat as Hone.
  { destruct x as [[] [] [] [] [] [] [] []]; vm_compute; lia. }
  lia.
Qed.

(** X25: for a text of 8-bit characters and a length limit that is not
    negative, the result of [sanitize_input] has at most six times that
    many characters: the text is cut to the limit before it is escaped, and
    escaping turns one character into at most six. *)
Theorem sanitize_input_length (text : string) (max_length : Z) :
  0 ≤ max_length →
  Z.of_nat (String.length (sanitize_input text max_length)) ≤ 6 * max_length.
Proof.
  intros Hmax. unfold sanitize_input. destruct (String.eqb text ""); [cbn; lia|].
  pose proof (length_escape_all (remove_control (slice_to text max_length))) as H1.
  pose proof (length_remove_control (slice_to text max_length)) as H2.
  assert (String.length (slice_to text max_length) ≤ Z.to_nat max_length)%nat as H3.
  { unfold slice_to. destruct (Z.ltb_spec max_length 0); [lia|].
    apply length_substring_0. }
  lia.
Qed.

Lemma sanitize_input_length_witness :
  Z.of_nat (String.length (sanitize_input "<<<<<<<<" 3)) ≤ 6 * 3.
Proof. apply sanitize_input_length. lia. Defined.

Lemma substring_0_all (k : nat) (s : string) :
  (String.length s ≤ k)%nat → String.substring 0 k s = s.
Proof.
  revert s. induction k as [|k IH]; intros [|a s] Hk; cbn in *; try done; try lia.
  f_equal. apply IH. lia.
Qed.

Lemma clean_text_unchanged (text : string) :
  (∀ c, str_contains c text = true →
        is_control c = false ∧ html_escape_table !! c = None) →
  escape_all (remove_control text) = text.
Proof.
  induction text as [|x rest IH]; intros Hclean; [done|].
  destruct (Hclean x) as [Hx Hkey]; [cbn; by rewrite Ascii.eqb_refl|].
  cbn [remove_control]. rewrite Hx. cbn [escape_all]. rewrite Hkey.
  simpl. f_equal. apply IH. intros c Hc. apply Hclean. cbn. rewrite Hc.
  apply orb_true_r.
Qed.

(** X26: [sanitize_input] returns a text of 8-bit characters unchanged
    when the text has no more characters than the limit and contains no
    control character and none of [&], [<], [>], double quote and single
    quote. *)
Theorem sanitize_input_clean_text (text : string) (max_length : Z) :
  Z.of_nat (String.length text) ≤ max_length →
  (∀ c, str_contains c text = true →
        is_control c = false ∧ html_escape_table !! c = None) →
  sanitize_input text max_length = text.
Proof.
  intros Hlen Hclean. unfold sanitize_input.
  destruct (String.eqb_spec text "") as [->|_]; [done|].
  unfold slice_to. destruct (Z.ltb_spec max_length 0); [lia|].
  rewrite substring_0_all by lia. by apply clean_text_unchanged.
Qed.

Lemma sanitize_input_clean_text_witness :
  sanitize_input "a b" 3 = "a b".
Proof.
  apply sanitize_input_clean_text; [simpl; lia|].
  intros c Hc.
  destruct c as [[] [] [] [] [] [] [] []]; vm_compute in Hc; try discriminate Hc;
    split; vm_compute; reflexivity.
Defined.

(** ** [is_safe_redirect_url] *)

Lemma prefix_first_char (p : string) (c a : ascii) (rest : string) :
  c ≠ a → String.prefix (String c p) (String a rest) = false.
Proof. intros Hne. cbn. destruct (ascii_dec c a); [done | done]. Qed.

(** X27: [is_safe_redirect_url] accepts only targets that are not empty and
    contain none of [<], [>], double quote, single quote and backslash; and
    it accepts every such target that does not begin with the letter [h]
    in lower case, so a target that begins with [//] or with [HTTP://] in
    upper case passes the check. *)
Theorem is_safe_redirect_url_coverage (target : string) :
  (is_safe_redirect_url target = true →
     target ≠ "" ∧
     String.prefix "http://" target = false ∧
     String.prefix "https://" target = false ∧
     ∀ c, c ∈ dangerous_chars → str_contains c target = false) ∧
  (∀ first rest,
     target = String first rest →
     first ≠ "h"%char →
     (∀ c, c ∈ dangerous_chars → str_contains c target = false) →
     is_safe_redirect_url target = true).
Proof.
  unfold is_safe_redirect_url. split.
  - destruct (String.eqb_spec target "") as [->|Hne]; [done|].
    destruct (String.prefix "http://" target); [done|].
    destruct (String.prefix "https://" target); [done|]. cbn [orb].
    destruct (existsb _ dangerous_chars) eqn:Hany; [done|]. intros _.
    split; [done|]. split; [done|]. split; [done|].
    intros c Hc. destruct (str_contains c target) eqn:Hin; [|done].
    assert (existsb (fun char => str_contains char target) dangerous_chars = true)
      as Hyes; [|congruence].
    apply existsb_exists. exists c. split; [by apply list_elem_of_In | done].
  - intros first rest -> Hfirst Hclean. cbn [String.eqb].
    rewrite !prefix_first_char by congruence. cbn [orb].
    destruct (existsb _ dangerous_chars) eqn:Hany; [|done].
    apply existsb_exists in Hany as (c & Hc%list_elem_of_In & Hin).
    rewrite (Hclean c Hc) in Hin. done.
Qed.

Lemma is_safe_redirect_url_coverage_witness :
  is_safe_redirect_url "//example.org/login" = true.
Proof.
  refine (proj2 (is_safe_redirect_url_coverage "//example.org/login") "/"%char
            "/example.org/login" eq_refl _ _).
  - discriminate.
  - intros c Hc. unfold dangerous_chars in Hc.
    repeat (apply elem_of_cons in Hc as [-> | Hc]; [reflexivity|]).
    by apply not_elem_of_nil in Hc.
Defined.
